(** * Conversion-job lifecycle of the file-conversion backend

    A shallow embedding of the conversion store (class [MockStorage], the
    implementation bound to the exported [storage]) and of the conversion
    routes that [registerRoutes] installs in routes.ts, followed by the
    properties of the job lifecycle.

    Conventions of the embedding:
    - a JavaScript [Map<string, V>] is an association list kept in insertion
      order ([JsMap]); [Array.from(map.values())] reads it left to right;
    - [randomUUID()] and [new Date()] are inputs of the operation that calls
      them (the caller of the model supplies what the runtime returned);
    - every handler runs to completion before another one starts: Node runs
      them on one thread and [MockStorage] never waits on I/O, so a handler
      is a function from the world before to the world after; the timer
      callback, which sleeps on a timeout of its own, takes two such turns;
    - a rejected promise is the [Rejected] outcome of [Outcome];
    - a JavaScript string is the sequence of its UTF-16 code units, and a
      character of a [string] here stands for one code unit: [String.length]
      is the [length] property, and the strings covered are those whose
      code units are below 256. *)

From Stdlib Require Import String Ascii List ZArith Bool Lia DecimalString.
Import ListNotations.
Open Scope string_scope.
Open Scope Z_scope.

Set Implicit Arguments.
#[local] Set Warnings "-register-all".

(** ** JavaScript [Map] with string keys, in insertion order *)

Module JsMap.
Section Ops.
Context {V : Type}.

Definition t := list (string * V).

Definition empty : t := [].

(** [Map.prototype.get]; [None] is [undefined]. *)
Fixpoint get (k : string) (m : t) : option V :=
  match m with
  | [] => None
  | (k', v) :: r => if String.eqb k k' then Some v else get k r
  end.

(** [Map.prototype.has]. *)
Definition has (k : string) (m : t) : bool :=
  match get k m with Some _ => true | None => false end.

(** [Map.prototype.set]: an existing key keeps its place in the iteration
    order, a new key goes last. *)
Fixpoint set (k : string) (v : V) (m : t) : t :=
  match m with
  | [] => [(k, v)]
  | (k', v') :: r =>
      if String.eqb k k' then (k, v) :: r else (k', v') :: set k v r
  end.

(** The entries left by [Map.prototype.delete]. A [Map] holds a key once,
    so this drops the one entry of [k]. *)
Definition remove (k : string) (m : t) : t :=
  filter (fun e => negb (String.eqb k (fst e))) m.

(** [Map.prototype.values], [Map.prototype.keys]. *)
Definition values (m : t) : list V := map snd m.
Definition keys (m : t) : list string := map fst m.
End Ops.
Arguments t : clear implicits.
End JsMap.

(** ** JSON values (the [metadata] column and parsed settings)

    The only number the code builds is [batchSize], a length; numbers are
    integers here. *)

Inductive Json : Type :=
| JNull
| JBool (b : bool)
| JNum (n : Z)
| JStr (s : string)
| JArr (l : list Json)
| JObj (props : list (string * Json)).

(** JavaScript truthiness of a JSON value. *)
Definition truthy (j : Json) : bool :=
  match j with
  | JNull => false
  | JBool b => b
  | JNum n => negb (n =? 0)
  | JStr s => negb (String.eqb s "")
  | JArr _ | JObj _ => true
  end.

(** The property name of array index [i]. *)
Definition index_key (i : nat) : string :=
  NilEmpty.string_of_uint (Nat.to_uint i).

Fixpoint indexed {A : Type} (i : nat) (l : list A) : list (string * A) :=
  match l with
  | [] => []
  | x :: r => (index_key i, x) :: indexed (S i) r
  end.

(** The own enumerable properties that [{...j}] copies. A string spreads
    into one property per code unit, which is one per character of the
    [string] (see the conventions above). Properties are only ever read by
    name below, so the order JavaScript gives to integer-like keys is left
    out. *)
Definition spread (j : Json) : list (string * Json) :=
  match j with
  | JObj props => props
  | JArr l => indexed 0 l
  | JStr s =>
      indexed 0 (map (fun c => JStr (String c EmptyString)) (list_ascii_of_string s))
  | JNull | JBool _ | JNum _ => []
  end.

(** [typeof j === 'object'] for a truthy [j]. *)
Definition is_object (j : Json) : bool :=
  match j with
  | JArr _ | JObj _ => true
  | _ => false
  end.

(** Property read [j.k] on an object; arrays are read through their index
    properties. *)
Definition prop (k : string) (j : Json) : option Json :=
  JsMap.get k (spread j).

(** ** The [conversions] row types of shared/schema.ts *)

Definition Date := Z.

Module Conversion.
Record t := mk {
  id : string;
  fromFormat : string;
  toFormat : string;
  originalFilename : string;
  filePath : string;
  fileSize : Z;
  status : string;
  downloadUrl : option string;
  createdAt : option Date;
  completedAt : option Date;
  metadata : Json
}.
End Conversion.

(** [InsertConversion]: the insert schema without [id], [createdAt] and
    [completedAt]. [None] is an absent or null optional column. *)
Module InsertConversion.
Record t := mk {
  fromFormat : string;
  toFormat : string;
  originalFilename : string;
  filePath : string;
  fileSize : Z;
  status : option string;
  downloadUrl : option string;
  metadata : option Json
}.
End InsertConversion.

(** [Partial<Conversion>]: [None] is a key that the object does not have. *)
Module Partial.
Record t := mk {
  id : option string;
  fromFormat : option string;
  toFormat : option string;
  originalFilename : option string;
  filePath : option string;
  fileSize : option Z;
  status : option string;
  downloadUrl : option (option string);
  createdAt : option (option Date);
  completedAt : option (option Date);
  metadata : option Json
}.

Definition none : t :=
  mk None None None None None None None None None None None.
End Partial.

(** One key of [{ ...existing, ...updates }]. *)
Definition overlay {A : Type} (old : A) (upd : option A) : A :=
  match upd with
  | Some v => v
  | None => old
  end.

(** [{ ...existing, ...updates }]. *)
Definition merge (existing : Conversion.t) (updates : Partial.t) : Conversion.t :=
  {| Conversion.id := overlay (Conversion.id existing) (Partial.id updates);
     Conversion.fromFormat :=
       overlay (Conversion.fromFormat existing) (Partial.fromFormat updates);
     Conversion.toFormat :=
       overlay (Conversion.toFormat existing) (Partial.toFormat updates);
     Conversion.originalFilename :=
       overlay (Conversion.originalFilename existing) (Partial.originalFilename updates);
     Conversion.filePath :=
       overlay (Conversion.filePath existing) (Partial.filePath updates);
     Conversion.fileSize :=
       overlay (Conversion.fileSize existing) (Partial.fileSize updates);
     Conversion.status :=
       overlay (Conversion.status existing) (Partial.status updates);
     Conversion.downloadUrl :=
       overlay (Conversion.downloadUrl existing) (Partial.downloadUrl updates);
     Conversion.createdAt :=
       overlay (Conversion.createdAt existing) (Partial.createdAt updates);
     Conversion.completedAt :=
       overlay (Conversion.completedAt existing) (Partial.completedAt updates);
     Conversion.metadata :=
       overlay (Conversion.metadata existing) (Partial.metadata updates) |}.

(** [s || d] on an optional string. *)
Definition string_or (s : option string) (d : string) : string :=
  match s with
  | Some v => if String.eqb v "" then d else v
  | None => d
  end.

(** [s || null] on an optional string. *)
Definition string_or_null (s : option string) : option string :=
  match s with
  | Some v => if String.eqb v "" then None else Some v
  | None => None
  end.

(** [j || null] on an optional JSON value. *)
Definition json_or_null (j : option Json) : Json :=
  match j with
  | Some v => if truthy v then v else JNull
  | None => JNull
  end.

(** The properties that [{ ...(md || {}) }] copies from optional metadata. *)
Definition ownProps (md : option Json) : list (string * Json) :=
  match md with
  | Some j => if truthy j then spread j else []
  | None => []
  end.

(** ** [MockStorage] *)

Module MockStorage.

(** The private [conversions] map is all the state there is. *)
Definition t := JsMap.t Conversion.t.

Definition empty : t := JsMap.empty.

Definition getConversion (id : string) (st : t) : option Conversion.t :=
  JsMap.get id st.

(** [uuid] is what [randomUUID()] returned, [now] what [new Date()] did. *)
Definition createConversion (uuid : string) (now : Date)
    (insertConversion : InsertConversion.t) (st : t) : Conversion.t * t :=
  let conversion :=
    {| Conversion.id := uuid;
       Conversion.fromFormat := InsertConversion.fromFormat insertConversion;
       Conversion.toFormat := InsertConversion.toFormat insertConversion;
       Conversion.originalFilename :=
         InsertConversion.originalFilename insertConversion;
       Conversion.filePath := InsertConversion.filePath insertConversion;
       Conversion.fileSize := InsertConversion.fileSize insertConversion;
       Conversion.createdAt := Some now;
       Conversion.completedAt := None;
       Conversion.metadata :=
         json_or_null (InsertConversion.metadata insertConversion);
       Conversion.status :=
         string_or (InsertConversion.status insertConversion) "pending";
       Conversion.downloadUrl :=
         string_or_null (InsertConversion.downloadUrl insertConversion) |} in
  (conversion, JsMap.set uuid conversion st).

Definition updateConversion (id : string) (updates : Partial.t) (st : t)
    : option Conversion.t * t :=
  match JsMap.get id st with
  | None => (None, st)
  | Some existing =>
      let updated := merge existing updates in
      (Some updated, JsMap.set id updated st)
  end.

Definition deleteConversion (id : string) (st : t) : bool * t :=
  (JsMap.has id st, JsMap.remove id st).

(** The metadata object built for a batch member:
    [{ ...(conv.metadata || {}), batchId, batchSize }]. *)
Definition batchMetadata (md : option Json) (batchId : string) (batchSize : nat)
    : Json :=
  JObj (JsMap.set "batchSize" (JNum (Z.of_nat batchSize))
         (JsMap.set "batchId" (JStr batchId) (ownProps md))).

Definition withBatch (conv : InsertConversion.t) (batchId : string)
    (batchSize : nat) : InsertConversion.t :=
  {| InsertConversion.fromFormat := InsertConversion.fromFormat conv;
     InsertConversion.toFormat := InsertConversion.toFormat conv;
     InsertConversion.originalFilename := InsertConversion.originalFilename conv;
     InsertConversion.filePath := InsertConversion.filePath conv;
     InsertConversion.fileSize := InsertConversion.fileSize conv;
     InsertConversion.status := InsertConversion.status conv;
     InsertConversion.downloadUrl := InsertConversion.downloadUrl conv;
     InsertConversion.metadata :=
       Some (batchMetadata (InsertConversion.metadata conv) batchId batchSize) |}.

(** The [for ... of] loop of [createBatchConversion]; [i] counts the
    members already created, [uuids i] and [nows i] are what the [i]-th
    [createConversion] call draws. *)
Fixpoint createBatchLoop (batchId : string) (batchSize : nat)
    (uuids : nat -> string) (nows : nat -> Date) (i : nat)
    (rest : list InsertConversion.t) (results : list Conversion.t) (st : t)
    : list Conversion.t * t :=
  match rest with
  | [] => (results, st)
  | conv :: rest' =>
      let '(conversion, st') :=
        createConversion (uuids i) (nows i) (withBatch conv batchId batchSize) st in
      createBatchLoop batchId batchSize uuids nows (S i) rest'
        (results ++ [conversion]) st'
  end.

Definition createBatchConversion (batchId : string) (uuids : nat -> string)
    (nows : nat -> Date) (batchConversions : list InsertConversion.t) (st : t)
    : list Conversion.t * t :=
  createBatchLoop batchId (length batchConversions) uuids nows 0
    batchConversions [] st.

(** The filter predicate of [getBatchConversions]. *)
Definition inBatch (batchId : string) (conv : Conversion.t) : bool :=
  let md := Conversion.metadata conv in
  truthy md && is_object md &&
  match prop "batchId" md with
  | Some (JStr b) => String.eqb b batchId
  | _ => false
  end.

Definition getBatchConversions (batchId : string) (st : t) : list Conversion.t :=
  filter (inBatch batchId) (JsMap.values st).

End MockStorage.

(** ** Promises, the console and the upload intake *)

Inductive Outcome (A : Type) : Type :=
| Resolved (a : A)
| Rejected (error : string).
Arguments Resolved {A} a.
Arguments Rejected {A} error.

Inductive Level := Log | Warn | Error.

Record LogEntry := { level : Level; text : string }.

(** The properties of [req.file] and of the members of [req.files] that
    the handlers read. *)
Record UploadedFile := {
  originalname : string;
  path : string;
  size : Z;
  filename : string;
  mimetype : string
}.

(** The text fields of a conversion request; [None] is an absent field. *)
Record Fields := {
  fromFormat : option string;
  toFormat : option string;
  quality : option string;
  settings : option string
}.

(** JavaScript truthiness of an optional text field. *)
Definition present (s : option string) : bool :=
  match s with
  | Some v => negb (String.eqb v "")
  | None => false
  end.

(** The text of an optional field; an absent one reads as empty. *)
Definition value (s : option string) : string :=
  match s with
  | Some v => v
  | None => ""
  end.

Inductive Route := Legacy | Single | Batch.

(** A scheduled lifecycle task: the route that scheduled it, the job it will
    update, the [setTimeout] delay and the simulated processing time. The
    callback runs in two turns of the event loop: when the outer timeout of
    [delay] ms is over it starts and goes to sleep on its inner timeout of
    [processingTime] ms, and when that one is over it updates the job;
    [started] tells the two apart. *)
Record Timer := {
  route : Route;
  conversionId : string;
  delay : Z;
  processingTime : Z;
  started : bool
}.

(** An issue of a [ZodError], by its [code] and the one key in its [path]. *)
Module ZodIssue.
Record t := mk { code : string; path : string }.
End ZodIssue.

Inductive Body :=
| ErrorBody (error : string)
| MessageBody (message : string)
| InvalidBody (error : string) (details : list ZodIssue.t)
| ConversionBody (conversion : Conversion.t)
| ConversionsBody (conversions : list Conversion.t)
| BatchBody (batchId : option Json) (conversions : list Conversion.t) (totalFiles : nat).

Inductive Response :=
| Reply (code : Z) (body : Body)
| Download (file : string) (name : string).

(** The process state: the exported [storage], the timers not yet fired and
    what was written to the console. *)
Record World := {
  storage : MockStorage.t;
  timers : list Timer;
  console : list LogEntry
}.

Definition boot : World :=
  {| storage := MockStorage.empty; timers := []; console := [] |}.

(** ** The lifecycle task

    The task is written against [IStorage.updateConversion], a promise that
    may reject ([DatabaseStorage] does when the database cannot be reached). *)

Definition completedFields (id : string) (now : Date) : Partial.t :=
  {| Partial.id := None; Partial.fromFormat := None; Partial.toFormat := None;
     Partial.originalFilename := None; Partial.filePath := None;
     Partial.fileSize := None;
     Partial.status := Some "completed";
     Partial.downloadUrl := Some (Some ("/api/download/" ++ id));
     Partial.createdAt := None;
     Partial.completedAt := Some (Some now);
     Partial.metadata := None |}.

Definition failedFields : Partial.t :=
  {| Partial.id := None; Partial.fromFormat := None; Partial.toFormat := None;
     Partial.originalFilename := None; Partial.filePath := None;
     Partial.fileSize := None;
     Partial.status := Some "failed";
     Partial.downloadUrl := None;
     Partial.createdAt := None;
     Partial.completedAt := None;
     Partial.metadata := None |}.

(** [quality === "high" ? 3000 : quality === "medium" ? 2000 : 1000] *)
Definition baseTime (quality : option string) : Z :=
  match quality with
  | Some q =>
      if String.eqb q "high" then 3000
      else if String.eqb q "medium" then 2000 else 1000
  | None => 1000
  end.

(** The first argument of [console.error] in the catch block. *)
Definition errorPrefix (r : Route) (id : string) : string :=
  match r with
  | Batch => "Error processing conversion " ++ id ++ ":"
  | Legacy | Single => "Error processing conversion:"
  end.

Definition say (l : Level) (msg : string) (out : list LogEntry) : list LogEntry :=
  out ++ [{| level := l; text := msg |}].

(** The [console.log] lines of the legacy callback: when it starts, right
    before its update and right after it. *)
Definition startLine (r : Route) (id : string) (out : list LogEntry)
    : list LogEntry :=
  match r with
  | Legacy => say Log ("Starting conversion for " ++ id) out
  | Single | Batch => out
  end.

Definition updateLine (r : Route) (id : string) (out : list LogEntry)
    : list LogEntry :=
  match r with
  | Legacy => say Log ("Updating conversion " ++ id ++ " to completed") out
  | Single | Batch => out
  end.

Definition doneLines (r : Route) (id : string) (out : list LogEntry)
    : list LogEntry :=
  match r with
  | Legacy => say Log ("Conversion " ++ id ++ " completed successfully") out
  | Single | Batch => out
  end.

Section Task.
Variable St : Type.
Variable update : string -> Partial.t -> St -> Outcome (option Conversion.t) * St.

(** The callback handed to [setTimeout] from the moment its inner wait is
    over. The result is the promise of the callback, the storage and the
    console after it. *)
Definition task (tm : Timer) (now : Date) (s : St) (out : list LogEntry)
    : Outcome unit * St * list LogEntry :=
  let id := conversionId tm in
  let out0 := updateLine (route tm) id out in
  match update id (completedFields id now) s with
  | (Resolved _, s1) => (Resolved tt, s1, doneLines (route tm) id out0)
  | (Rejected e, s1) =>
      let out1 := say Error (errorPrefix (route tm) id ++ " " ++ e) out0 in
      match update id failedFields s1 with
      | (Resolved _, s2) => (Resolved tt, s2, out1)
      | (Rejected e', s2) => (Rejected e', s2, out1)
      end
  end.
End Task.

(** [MockStorage] seen through [IStorage]: its promises always resolve. *)
Definition mockUpdate (id : string) (updates : Partial.t) (st : MockStorage.t)
    : Outcome (option Conversion.t) * MockStorage.t :=
  let '(r, st') := MockStorage.updateConversion id updates st in
  (Resolved r, st').

(** A storage whose calls can reject: [MockStorage] behind a schedule that
    says, call after call, whether the call rejects before it touches the
    map. An exhausted schedule lets every call through. *)
Module Flaky.
Definition t := (MockStorage.t * list bool)%type.

Definition updateConversion (id : string) (updates : Partial.t) (s : t)
    : Outcome (option Conversion.t) * t :=
  match snd s with
  | true :: faults => (Rejected "storage unavailable", (fst s, faults))
  | false :: faults =>
      let '(r, st') := mockUpdate id updates (fst s) in (r, (st', faults))
  | [] =>
      let '(r, st') := mockUpdate id updates (fst s) in (r, (st', []))
  end.
End Flaky.

(** ** [insertConversionSchema]

    [createInsertSchema(conversions).omit({ id, createdAt, completedAt })]:
    the zod schema that drizzle-zod derives from the columns of the
    [conversions] table. A [text] column of MySQL becomes a string of at
    most 65535 code units and an [int] column an integer of 32 bits; a
    column that has a default or is not [notNull] may be absent; the [json]
    column takes any JSON value. *)

Definition textColumn (column : string) (s : string) : list ZodIssue.t :=
  if Z.of_nat (String.length s) >? 65535 then
    [{| ZodIssue.code := "too_big"; ZodIssue.path := column |}]
  else [].

Definition intColumn (column : string) (n : Z) : list ZodIssue.t :=
  if n <? -2147483648 then
    [{| ZodIssue.code := "too_small"; ZodIssue.path := column |}]
  else if n >? 2147483647 then
    [{| ZodIssue.code := "too_big"; ZodIssue.path := column |}]
  else [].

Definition optionalColumn {A : Type} (check : A -> list ZodIssue.t)
    (v : option A) : list ZodIssue.t :=
  match v with
  | Some x => check x
  | None => []
  end.

(** The issues zod collects, in the order of the columns. *)
Definition schemaIssues (data : InsertConversion.t) : list ZodIssue.t :=
  (textColumn "fromFormat" (InsertConversion.fromFormat data)
   ++ textColumn "toFormat" (InsertConversion.toFormat data)
   ++ textColumn "originalFilename" (InsertConversion.originalFilename data)
   ++ textColumn "filePath" (InsertConversion.filePath data)
   ++ intColumn "fileSize" (InsertConversion.fileSize data)
   ++ optionalColumn (textColumn "status") (InsertConversion.status data)
   ++ optionalColumn (textColumn "downloadUrl")
        (InsertConversion.downloadUrl data))%list.

(** [insertConversionSchema.parse(data)]: the data as they are when there
    is no issue (every key of [data] is a key of the schema, so zod strips
    none), and otherwise the issues of the [ZodError] it throws. *)
Definition insertConversionSchema_parse (data : InsertConversion.t)
    : InsertConversion.t + list ZodIssue.t :=
  match schemaIssues data with
  | [] => inl data
  | issues => inr issues
  end.

(** [conversionsData.map(data => insertConversionSchema.parse(data))]: the
    first parse that throws ends the [map]. *)
Fixpoint parseEach (conversionsData : list InsertConversion.t)
    : list InsertConversion.t + list ZodIssue.t :=
  match conversionsData with
  | [] => inl []
  | data :: rest =>
      match insertConversionSchema_parse data with
      | inr issues => inr issues
      | inl validated =>
          match parseEach rest with
          | inl validatedRest => inl (validated :: validatedRest)
          | inr issues => inr issues
          end
      end
  end.

(** ** The conversion routes of [registerRoutes] *)

Section Routes.

(** [JSON.parse]; [None] when it throws. *)
Variable JSON_parse : string -> option Json.

(** [path.extname] and [path.basename] of Node. *)
Variable extname : string -> string.
Variable basename : string -> string -> string.

(** [!fromFormat || !toFormat] *)
Definition missingFormats (f : Fields) : bool :=
  negb (present (fromFormat f)) || negb (present (toFormat f)).

(** The "Parse advanced settings if provided" block: the parsed settings and
    the console after it. *)
Definition parseSettings (s : option string) (out : list LogEntry)
    : Json * list LogEntry :=
  if present s then
    match JSON_parse (value s) with
    | Some j => (j, out)
    | None => (JObj [], say Warn ("Invalid settings JSON: " ++ value s) out)
    end
  else (JObj [], out).

(** [conversionData] of the three upload routes, as the handler builds it
    before the schema sees it. *)
Definition conversionData (r : Route) (f : Fields) (file : UploadedFile)
    (parsedSettings : Json) : InsertConversion.t :=
  let common :=
    [("quality", JStr (string_or (quality f) "high"));
     ("settings", parsedSettings)] in
  let extra :=
    match r with
    | Legacy =>
        [("uploadedFileName", JStr (filename file));
         ("originalName", JStr (originalname file));
         ("mimetype", JStr (mimetype file))]
    | Single => []
    | Batch => [("isBatch", JBool true)]
    end in
  {| InsertConversion.fromFormat := value (fromFormat f);
     InsertConversion.toFormat := value (toFormat f);
     InsertConversion.originalFilename := originalname file;
     InsertConversion.filePath := path file;
     InsertConversion.fileSize := size file;
     InsertConversion.status := Some "pending";
     InsertConversion.downloadUrl := None;
     InsertConversion.metadata := Some (JObj (common ++ extra)) |}.

(** The body shared by [POST /api/convert] ([Legacy]) and
    [POST /api/conversions] ([Single]); they differ in the metadata, in the
    key and wording of the two early refusals and in the status code of the
    answer. A [ZodError] is caught and answered 400 by both in the same
    words; by then the settings have been parsed, so the console may hold
    the warning about them. *)
Definition submit (r : Route) (uuid : string) (now : Date)
    (file : option UploadedFile) (f : Fields) (w : World) : Response * World :=
  let refuse msg :=
    match r with
    | Legacy => Reply 400 (MessageBody msg)
    | Single | Batch => Reply 400 (ErrorBody msg)
    end in
  match file with
  | None => (refuse "No file uploaded", w)
  | Some file =>
      if missingFormats f then
        (refuse (match r with
                 | Legacy => "fromFormat and toFormat are required"
                 | Single | Batch => "Missing format parameters"
                 end), w)
      else
        let '(parsedSettings, out) := parseSettings (settings f) (console w) in
        match insertConversionSchema_parse
                (conversionData r f file parsedSettings) with
        | inr issues =>
            (Reply 400 (InvalidBody "Invalid data" issues),
             {| storage := storage w; timers := timers w; console := out |})
        | inl validatedData =>
            let '(conversion, st) :=
              MockStorage.createConversion uuid now validatedData (storage w) in
            let tm := {| route := r; conversionId := Conversion.id conversion;
                         delay := 100; processingTime := baseTime (quality f);
                         started := false |} in
            (Reply (match r with Legacy => 200 | Single | Batch => 201 end)
                   (ConversionBody conversion),
             {| storage := st; timers := timers w ++ [tm]; console := out |})
        end
  end.

Definition postConvert := submit Legacy.
Definition postConversions := submit Single.

(** [conversions.forEach((conversion, index) => setTimeout(...))]. *)
Fixpoint batchTimers (q : option string) (index : nat)
    (conversions : list Conversion.t) : list Timer :=
  match conversions with
  | [] => []
  | conversion :: rest =>
      {| route := Batch; conversionId := Conversion.id conversion;
         delay := 100 + Z.of_nat index * 100;
         processingTime := baseTime q + Z.of_nat index * 500;
         started := false |}
      :: batchTimers q (S index) rest
  end.

(** [POST /api/conversions/batch]; [files] is [req.files]. *)
Definition postBatch (batchId : string) (uuids : nat -> string)
    (nows : nat -> Date) (files : option (list UploadedFile)) (f : Fields)
    (w : World) : Response * World :=
  match files with
  | None | Some [] => (Reply 400 (ErrorBody "No files uploaded"), w)
  | Some files =>
      if missingFormats f then
        (Reply 400 (ErrorBody "Missing format parameters"), w)
      else
        let '(parsedSettings, out) := parseSettings (settings f) (console w) in
        let conversionsData :=
          map (fun file => conversionData Batch f file parsedSettings) files in
        match parseEach conversionsData with
        | inr issues =>
            (Reply 400 (InvalidBody "Invalid data" issues),
             {| storage := storage w; timers := timers w; console := out |})
        | inl validatedConversions =>
            let '(conversions, st) :=
              MockStorage.createBatchConversion batchId uuids nows
                validatedConversions (storage w) in
            (Reply 201
               (BatchBody
                  (match conversions with
                   | c :: _ => prop "batchId" (Conversion.metadata c)
                   | [] => None
                   end)
                  conversions (length conversions)),
             {| storage := st;
                timers := timers w ++ batchTimers (quality f) 0 conversions;
                console := out |})
        end
  end.

(** [GET /api/conversions/:id] and [GET /api/conversions/batch/:batchId]. *)
Definition getConversionRoute (id : string) (w : World) : Response :=
  match MockStorage.getConversion id (storage w) with
  | None => Reply 404 (ErrorBody "Conversion not found")
  | Some conversion => Reply 200 (ConversionBody conversion)
  end.

Definition getBatchRoute (batchId : string) (w : World) : Response :=
  Reply 200 (ConversionsBody (MockStorage.getBatchConversions batchId (storage w))).

(** [GET /api/download/:id]; [access p] tells whether [fs.access(p)]
    resolves. *)
Definition download (access : string -> bool) (id : string) (w : World)
    : Response :=
  match MockStorage.getConversion id (storage w) with
  | None => Reply 404 (ErrorBody "Conversion not found")
  | Some conversion =>
      if negb (String.eqb (Conversion.status conversion) "completed") then
        Reply 400 (ErrorBody "Conversion not completed")
      else
        let filePath := Conversion.filePath conversion in
        if access filePath then
          let ext := extname (Conversion.originalFilename conversion) in
          let baseName := basename (Conversion.originalFilename conversion) ext in
          Download filePath
            (baseName ++ "_converted." ++ Conversion.toFormat conversion)
        else Reply 404 (ErrorBody "File not found")
  end.

(** ** The event loop

    What can happen to the process, one event at a time. A timer that has
    not started yet fires by starting; a started timer fires by running its
    task, with the schedule of storage rejections it meets; the exported
    [MockStorage] itself never rejects, which is the empty schedule. *)

Inductive Event :=
| PostConvert (uuid : string) (now : Date) (file : option UploadedFile) (f : Fields)
| PostConversions (uuid : string) (now : Date) (file : option UploadedFile) (f : Fields)
| PostBatch (batchId : string) (uuids : nat -> string) (nows : nat -> Date)
    (files : option (list UploadedFile)) (f : Fields)
| Fire (n : nat) (now : Date) (faults : list bool)
| Delete (id : string).

(** The list without its [n]-th element. *)
Fixpoint drop_nth {A : Type} (n : nat) (l : list A) : list A :=
  match n, l with
  | _, [] => []
  | O, _ :: r => r
  | S n', x :: r => x :: drop_nth n' r
  end.

(** The timer once its callback has started. *)
Definition asStarted (tm : Timer) : Timer :=
  {| route := route tm; conversionId := conversionId tm; delay := delay tm;
     processingTime := processingTime tm; started := true |}.

(** The list with its [n]-th timer started. *)
Fixpoint start_nth (n : nat) (l : list Timer) : list Timer :=
  match n, l with
  | _, [] => []
  | O, tm :: r => asStarted tm :: r
  | S n', tm :: r => tm :: start_nth n' r
  end.

(** The timeout the [n]-th pending timer waits on is over. One that has not
    started begins its callback: the legacy route writes its first line,
    and the callback sleeps on its inner timeout. One that has started runs
    the rest of its callback and is done. *)
Definition fire (n : nat) (now : Date) (faults : list bool) (w : World) : World :=
  match nth_error (timers w) n with
  | None => w
  | Some tm =>
      if started tm then
        let '(_, s, out) :=
          task Flaky.updateConversion tm now (storage w, faults) (console w) in
        {| storage := fst s; timers := drop_nth n (timers w); console := out |}
      else
        {| storage := storage w;
           timers := start_nth n (timers w);
           console := startLine (route tm) (conversionId tm) (console w) |}
  end.

Definition deleteJob (id : string) (w : World) : bool * World :=
  let '(existed, st) := MockStorage.deleteConversion id (storage w) in
  (existed, {| storage := st; timers := timers w; console := console w |}).

Definition exec (e : Event) (w : World) : World :=
  match e with
  | PostConvert uuid now file f => snd (postConvert uuid now file f w)
  | PostConversions uuid now file f => snd (postConversions uuid now file f w)
  | PostBatch batchId uuids nows files f => snd (postBatch batchId uuids nows files f w)
  | Fire n now faults => fire n now faults w
  | Delete id => snd (deleteJob id w)
  end.

(** [randomUUID] never returns an id that is in use: [id] names neither a
    stored job nor a job with a pending timer. *)
Definition unused (id : string) (w : World) : Prop :=
  JsMap.get id (storage w) = None /\ ~ In id (map conversionId (timers w)).

(** The ids a [PostBatch] event draws for its [n] members. *)
Definition drawn (uuids : nat -> string) (n : nat) : list string :=
  map uuids (seq 0 n).

Definition allowed (e : Event) (w : World) : Prop :=
  match e with
  | PostConvert uuid _ _ _ | PostConversions uuid _ _ _ => unused uuid w
  | PostBatch _ uuids _ files _ =>
      let n := length (match files with Some fs => fs | None => [] end) in
      NoDup (drawn uuids n) /\ forall id, In id (drawn uuids n) -> unused id w
  | Fire _ _ _ | Delete _ => True
  end.

(** The worlds the process can be in. *)
Inductive reachable : World -> Prop :=
| reach_boot : reachable boot
| reach_exec e w : reachable w -> allowed e w -> reachable (exec e w).

(** [run w es]: the worlds passed through from [w] along the events [es],
    [w] first. *)
Fixpoint run (w : World) (es : list Event) : list World :=
  match es with
  | [] => [w]
  | e :: es' => w :: run (exec e w) es'
  end.

Fixpoint allowed_all (w : World) (es : list Event) : Prop :=
  match es with
  | [] => True
  | e :: es' => allowed e w /\ allowed_all (exec e w) es'
  end.

(** The world after the events [es], taken in order from [w]. *)
Definition execAll (es : list Event) (w : World) : World :=
  fold_left (fun w e => exec e w) es w.

(** The status of job [id] in [w], if it is stored. *)
Definition statusOf (id : string) (w : World) : option string :=
  option_map Conversion.status (MockStorage.getConversion id (storage w)).

End Routes.

Unset Implicit Arguments.

(** ** Vocabulary of the properties *)

(** What one key of the merged record holds, given the key's old value and
    its entry in the update. *)
Definition mergedKey {A : Type} (old : A) (upd : option A) (new : A) : Prop :=
  match upd with
  | Some v => new = v
  | None => new = old
  end.

(** The record that the [i]-th turn of the batch loop creates. *)
Definition member (batchId : string) (batchSize : nat) (uuids : nat -> string)
    (nows : nat -> Date) (i : nat) (conv : InsertConversion.t) : Conversion.t :=
  fst (MockStorage.createConversion (uuids i) (nows i)
         (MockStorage.withBatch conv batchId batchSize) MockStorage.empty).

Fixpoint members (batchId : string) (batchSize : nat) (uuids : nat -> string)
    (nows : nat -> Date) (i : nat) (rest : list InsertConversion.t)
    : list Conversion.t :=
  match rest with
  | [] => []
  | conv :: rest' =>
      member batchId batchSize uuids nows i conv
      :: members batchId batchSize uuids nows (S i) rest'
  end.

Definition entry (c : Conversion.t) : string * Conversion.t := (Conversion.id c, c).

(** The store a started timer leaves when it fires, by the rejections it
    meets. *)
Definition firedStore (id : string) (now : Date) (faults : list bool)
    (st : MockStorage.t) : MockStorage.t :=
  match faults with
  | [] | false :: _ =>
      snd (MockStorage.updateConversion id (completedFields id now) st)
  | [true] | true :: false :: _ =>
      snd (MockStorage.updateConversion id failedFields st)
  | true :: true :: _ => st
  end.

(** A job as it is created: pending, with no download reference and no
    completion time. *)
Definition pendingJob (c : Conversion.t) : Prop :=
  Conversion.status c = "pending" /\
  Conversion.downloadUrl c = None /\
  Conversion.completedAt c = None.

Definition completedJob (id : string) (c : Conversion.t) : Prop :=
  Conversion.status c = "completed" /\
  Conversion.downloadUrl c = Some ("/api/download/" ++ id) /\
  Conversion.completedAt c <> None.

Definition failedJob (c : Conversion.t) : Prop :=
  Conversion.status c = "failed" /\
  Conversion.downloadUrl c = None /\
  Conversion.completedAt c = None.

(** The shape of a record stored under [id]. *)
Definition wellFormed (id : string) (c : Conversion.t) : Prop :=
  Conversion.id c = id /\ (pendingJob c \/ completedJob id c \/ failedJob c).

(** The invariant of the process: every stored record is well formed, a job
    whose timer has not fired is still pending, and no two timers are for
    the same job. *)
Definition consistent (w : World) : Prop :=
  (forall id c, MockStorage.getConversion id (storage w) = Some c -> wellFormed id c) /\
  (forall tm c, In tm (timers w) ->
     MockStorage.getConversion (conversionId tm) (storage w) = Some c ->
     pendingJob c) /\
  NoDup (map conversionId (timers w)).

(** How the status of a job may differ between two consecutive worlds; the
    status is [None] while the job is not stored. *)
Definition lifecycleStep (before after : option string) : Prop :=
  match before, after with
  | Some s, Some s' =>
      s' = s \/ (s = "pending" /\ (s' = "completed" \/ s' = "failed"))
  | None, Some s' => s' = "pending"
  | _, None => True
  end.

Definition terminal (s : string) : Prop := s = "completed" \/ s = "failed".

(** The status machine with a [processing] stage, read on the worlds [ws] of
    a run: wherever job [id] shows a terminal status, an earlier world of
    the run shows it as [processing]. *)
Definition processingFirst (ws : list World) (id : string) : Prop :=
  forall j wj s,
    nth_error ws j = Some wj -> statusOf id wj = Some s -> terminal s ->
    exists i wi,
      (i < j)%nat /\ nth_error ws i = Some wi /\
      statusOf id wi = Some "processing".

(** [grown w w']: [w'] is [w] with new pending jobs appended to the map,
    under distinct ids unused in [w], and with one timer for each of them. *)
Definition grown (w w' : World) : Prop :=
  exists cs tms out,
    w' = {| storage := (storage w ++ map entry cs)%list;
            timers := (timers w ++ tms)%list;
            console := out |} /\
    map conversionId tms = map Conversion.id cs /\
    NoDup (map Conversion.id cs) /\
    (forall c, In c cs -> pendingJob c) /\
    (forall c, In c cs -> unused (Conversion.id c) w).

(** What [insertConversionSchema] asks of an upload, said on the request
    itself: the four texts that become [text] columns have at most 65535
    code units and the size of the file is an integer of 32 bits. *)
Definition textFits (s : string) : Prop := Z.of_nat (String.length s) <= 65535.

Definition int32 (n : Z) : Prop := -2147483648 <= n <= 2147483647.

Definition storable (f : Fields) (file : UploadedFile) : Prop :=
  textFits (value (fromFormat f)) /\ textFits (value (toFormat f)) /\
  textFits (originalname file) /\ textFits (path file) /\
  int32 (size file).

(** ** A worked scenario

    One upload of [report.docx] to convert to PDF, with settings that are
    not JSON, answered under the id [job-1]; then its timer fires, once to
    start and once more when the processing time is over. *)

Definition demoParse (s : string) : option Json :=
  if String.eqb s "{}" then Some (JObj []) else None.

Definition demoFile : UploadedFile :=
  {| originalname := "report.docx"; path := "uploads/3f2a"; size := 2048;
     filename := "3f2a"; mimetype := "application/msword" |}.

Definition demoFields : Fields :=
  {| fromFormat := Some "docx"; toFormat := Some "pdf";
     quality := Some "low"; settings := Some "{oops" |}.

Definition demoSubmit : Event :=
  PostConversions "job-1" 1000 (Some demoFile) demoFields.

Definition demoEvents : list Event :=
  [demoSubmit; Fire 0 1100 []; Fire 0 2200 []].

(** The world after the upload, and the world once the timer has started. *)
Definition demoWorld : World := exec demoParse demoSubmit boot.

Definition demoRunning : World := exec demoParse (Fire 0 1100 []) demoWorld.

(** The timer of the scenario, started. *)
Definition demoTimer : Timer :=
  {| route := Single; conversionId := "job-1"; delay := 100;
     processingTime := 1000; started := true |}.




Definition demoUuids (i : nat) : string :=
  match i with
  | O => "job-a"
  | S O => "job-b"
  | _ => "job-z"
  end.

(** The job of the scenario as the upload stores it, and as it reads once
    its timer has fired. *)
Definition demoJob : Conversion.t :=
  {| Conversion.id := "job-1";
     Conversion.fromFormat := "docx";
     Conversion.toFormat := "pdf";
     Conversion.originalFilename := "report.docx";
     Conversion.filePath := "uploads/3f2a";
     Conversion.fileSize := 2048;
     Conversion.status := "pending";
     Conversion.downloadUrl := None;
     Conversion.createdAt := Some 1000;
     Conversion.completedAt := None;
     Conversion.metadata :=
       JObj [("quality", JStr "low"); ("settings", JObj [])] |}.

Definition demoDone : Conversion.t :=
  merge demoJob (completedFields "job-1" 2200).

(** A store that holds the member of an earlier batch and the job of the
    scenario. *)
Definition demoOlder : Conversion.t :=
  {| Conversion.id := "job-0";
     Conversion.fromFormat := "png";
     Conversion.toFormat := "jpg";
     Conversion.originalFilename := "logo.png";
     Conversion.filePath := "uploads/01ab";
     Conversion.fileSize := 300;
     Conversion.status := "completed";
     Conversion.downloadUrl := Some "/api/download/job-0";
     Conversion.createdAt := Some 500;
     Conversion.completedAt := Some 900;
     Conversion.metadata :=
       JObj [("quality", JStr "high"); ("settings", JObj []);
             ("isBatch", JBool true); ("batchId", JStr "batch-0");
             ("batchSize", JNum 1)] |}.

Definition demoStore : MockStorage.t :=
  [("job-0", demoOlder); ("job-1", demoJob)].

(** ** The batch download route *)

(** [GET /api/download/batch/:batchId]; [access p] tells whether
    [fs.access(p)] resolves. *)
Definition downloadBatch (access : string -> bool) (batchId : string) (w : World)
    : Response :=
  let conversions := MockStorage.getBatchConversions batchId (storage w) in
  match conversions with
  | [] => Reply 404 (ErrorBody "Batch not found")
  | _ :: _ =>
      let completedConversions :=
        filter (fun c => String.eqb (Conversion.status c) "completed") conversions in
      match completedConversions with
      | [] => Reply 400 (ErrorBody "No completed conversions in batch")
      | firstConversion :: _ =>
          let filePath := Conversion.filePath firstConversion in
          if access filePath then
            Download filePath ("batch_" ++ batchId ++ ".zip")
          else Reply 404 (ErrorBody "Files not found")
      end
  end.

(** ** More vocabulary *)

(** The single update that two updates in a row amount to: a key of the
    later update wins. *)
Definition laterWins (first later : Partial.t) : Partial.t :=
  let pick {A : Type} (a b : option A) : option A :=
    match b with
    | Some v => Some v
    | None => a
    end in
  {| Partial.id := pick (Partial.id first) (Partial.id later);
     Partial.fromFormat := pick (Partial.fromFormat first) (Partial.fromFormat later);
     Partial.toFormat := pick (Partial.toFormat first) (Partial.toFormat later);
     Partial.originalFilename :=
       pick (Partial.originalFilename first) (Partial.originalFilename later);
     Partial.filePath := pick (Partial.filePath first) (Partial.filePath later);
     Partial.fileSize := pick (Partial.fileSize first) (Partial.fileSize later);
     Partial.status := pick (Partial.status first) (Partial.status later);
     Partial.downloadUrl := pick (Partial.downloadUrl first) (Partial.downloadUrl later);
     Partial.createdAt := pick (Partial.createdAt first) (Partial.createdAt later);
     Partial.completedAt := pick (Partial.completedAt first) (Partial.completedAt later);
     Partial.metadata := pick (Partial.metadata first) (Partial.metadata later) |}.

(** The world a schema refusal leaves: the store and the timers as they
    were, and the console as parsing the settings left it. *)
Definition afterParsing (JSON_parse : string -> option Json) (f : Fields)
    (w : World) : World :=
  {| storage := storage w; timers := timers w;
     console := snd (parseSettings JSON_parse (settings f) (console w)) |}.

(** The event stores a record under [id]. *)
Definition creates (id : string) (e : Event) : Prop :=
  match e with
  | PostConvert uuid _ _ _ | PostConversions uuid _ _ _ => uuid = id
  | PostBatch _ uuids _ files _ =>
      In id (drawn uuids (length (match files with Some fs => fs | None => [] end)))
  | Fire _ _ _ | Delete _ => False
  end.

(** The columns of a job that come from its upload. *)
Definition sameUpload (c c' : Conversion.t) : Prop :=
  Conversion.id c' = Conversion.id c /\
  Conversion.fromFormat c' = Conversion.fromFormat c /\
  Conversion.toFormat c' = Conversion.toFormat c /\
  Conversion.originalFilename c' = Conversion.originalFilename c /\
  Conversion.filePath c' = Conversion.filePath c /\
  Conversion.fileSize c' = Conversion.fileSize c /\
  Conversion.createdAt c' = Conversion.createdAt c /\
  Conversion.metadata c' = Conversion.metadata c.

(** ** String operations of JavaScript used below *)

(** [s.startsWith(p)] *)
Fixpoint startsWith (p s : string) : bool :=
  match p with
  | EmptyString => true
  | String a p' =>
      match s with
      | EmptyString => false
      | String b s' => Ascii.eqb a b && startsWith p' s'
      end
  end.

(** [hay.includes(needle)] *)
Fixpoint includes (needle hay : string) : bool :=
  if startsWith needle hay then true
  else
    match hay with
    | EmptyString => false
    | String _ rest => includes needle rest
    end.

(** [s.split(sep)] for a separator of one character. *)
Fixpoint splitOn (sep : ascii) (s : string) : list string :=
  match s with
  | EmptyString => [EmptyString]
  | String c rest =>
      if Ascii.eqb c sep then EmptyString :: splitOn sep rest
      else
        match splitOn sep rest with
        | piece :: pieces => String c piece :: pieces
        | [] => [String c EmptyString]
        end
  end.

(** [l.join(sep)] *)
Definition joinWith (sep : ascii) (l : list string) : string :=
  String.concat (String sep EmptyString) l.

(** [c] occurs in [s]. *)
Fixpoint hasChar (c : ascii) (s : string) : bool :=
  match s with
  | EmptyString => false
  | String c' rest => Ascii.eqb c' c || hasChar c rest
  end.

(** ** [MockAdminStorage]: the tool catalogue kept in memory *)

(** What a property of a tool object can hold: a tool is an [any] built from
    request fields, so a property may be [undefined], besides JSON values
    and the [Date] of [createdAt]. *)
Inductive Value :=
| VUndefined
| VDate (t : Date)
| VJson (j : Json).

Module MockAdminStorage.

(** A tool object: its properties in insertion order. *)
Definition Tool := JsMap.t Value.

(** The static [tools] array. *)
Definition t := list Tool.

(** The two tools the class starts with; the dates are midnight UTC of
    2024-01-15 and 2024-02-01 in milliseconds. *)
Definition initial : t :=
  [ [("id", VJson (JStr "1")); ("name", VJson (JStr "PDF Splitter"));
     ("folderName", VJson (JStr "pdf-splitter"));
     ("version", VJson (JStr "v1.0.0")); ("isActive", VJson (JBool true));
     ("usageCount", VJson (JNum 150)); ("createdAt", VDate 1705276800000)];
    [("id", VJson (JStr "2")); ("name", VJson (JStr "Image Converter"));
     ("folderName", VJson (JStr "image-converter"));
     ("version", VJson (JStr "v1.2.0")); ("isActive", VJson (JBool true));
     ("usageCount", VJson (JNum 89)); ("createdAt", VDate 1706745600000)] ].

Definition getTools (tools : t) : list Tool := tools.

(** [{ ...target, ...source }] built property after property. *)
Definition assign (target source : Tool) : Tool :=
  fold_left (fun o kv => JsMap.set (fst kv) (snd kv) o) source target.

(** [uuid] is what [randomUUID()] returned, [now] what [new Date()] did. *)
Definition addTool (uuid : string) (now : Date) (tool : Tool) (tools : t)
    : Tool * t :=
  let newTool :=
    JsMap.set "createdAt" (VDate now)
      (JsMap.set "usageCount" (VJson (JNum 0))
         (assign [("id", VJson (JStr uuid))] tool)) in
  (newTool, (tools ++ [newTool])%list).

(** [t.id === id] *)
Definition hasId (id : string) (tool : Tool) : bool :=
  match JsMap.get "id" tool with
  | Some (VJson (JStr s)) => String.eqb s id
  | _ => false
  end.

(** [Array.prototype.findIndex], counting from [i]; [-1] when nothing
    matches. *)
Fixpoint findIndexFrom {A : Type} (p : A -> bool) (i : Z) (l : list A) : Z :=
  match l with
  | [] => -1
  | x :: rest => if p x then i else findIndexFrom p (i + 1) rest
  end.

Definition deleteTool (id : string) (tools : t) : bool * t :=
  let index := findIndexFrom (hasId id) 0 tools in
  if index >? -1 then (true, drop_nth (Z.to_nat index) tools)
  else (false, tools).

End MockAdminStorage.

(** ** The folder name of an uploaded tool ([POST /api/admin/tools]) *)

(** [[a-z0-9]] *)
Definition isSlugChar (c : ascii) : bool :=
  let n := nat_of_ascii c in
  ((97 <=? n) && (n <=? 122) || (48 <=? n) && (n <=? 57))%nat.

(** [.replace(/[^a-z0-9]/g, '-')] *)
Fixpoint replaceUnsafe (s : string) : string :=
  match s with
  | EmptyString => EmptyString
  | String c rest =>
      String (if isSlugChar c then c else "-"%char) (replaceUnsafe rest)
  end.

(** [.replace(/-+/g, '-')]: a dash that another dash follows is dropped. *)
Fixpoint collapseDashes (s : string) : string :=
  match s with
  | EmptyString => EmptyString
  | String c rest =>
      if Ascii.eqb c "-" then
        match rest with
        | String c' _ =>
            if Ascii.eqb c' "-" then collapseDashes rest
            else String c (collapseDashes rest)
        | EmptyString => String c EmptyString
        end
      else String c (collapseDashes rest)
  end.

Section FolderName.

(** [String.prototype.toLowerCase] *)
Variable toLowerCase : string -> string.

(** [folderName || name.toLowerCase().replace(...).replace(...)] *)
Definition finalFolderName (folderName : option string) (name : string) : string :=
  if present folderName then value folderName
  else collapseDashes (replaceUnsafe (toLowerCase name)).

End FolderName.

(** ** Visitor tracking ([trackUser], with [SKIP_DB_INIT] set to ['true']) *)

Module User.
Record t := mk {
  id : string;
  authToken : string;
  userType : string;
  isActive : bool;
  firstVisit : Date;
  lastActiveAt : Date;
  ipAddress : option string;
  userAgent : option string;
  metadata : Json
}.
End User.

(** What [trackUser] reads from a request: the [x-user-token] header, the
    [user-token] cookie, the [user-agent] header and the address
    [req.ip || req.connection.remoteAddress]. *)
Record Visit := {
  headerToken : option string;
  cookieToken : option string;
  agent : option string;
  address : option string
}.

(** [memoryUsers] *)
Definition Users := JsMap.t User.t.

(** [a || b || c] on tokens. *)
Definition visitToken (req : Visit) (fresh : string) : string :=
  if present (headerToken req) then value (headerToken req)
  else if present (cookieToken req) then value (cookieToken req)
  else fresh.

(** The in-memory branch of [trackUser]. [tokenUuid] and [idUuid] are what
    [randomUUID()] returns for the token and for the id when the code asks
    for them; [now] is what [new Date()] returns for [lastActiveAt] and
    [first] what it returns for [firstVisit]. The result is the token set
    as cookie and as [req.userToken], the users and the console. *)
Definition trackUser (tokenUuid idUuid : string) (first now : Date)
    (req : Visit) (users : Users) (out : list LogEntry)
    : string * Users * list LogEntry :=
  let userToken := visitToken req tokenUuid in
  match JsMap.get userToken users with
  | None =>
      let users' :=
        JsMap.set userToken
          {| User.id := idUuid;
             User.authToken := userToken;
             User.userType := "visitor";
             User.isActive := true;
             User.firstVisit := first;
             User.lastActiveAt := now;
             User.ipAddress := address req;
             User.userAgent := agent req;
             User.metadata := JObj [("source", JStr "website")] |} users in
      (userToken, users',
       say Log ("New user tracked: " ++ userToken ++ " (Total: "
                ++ index_key (length users') ++ ")") out)
  | Some user =>
      let user' :=
        {| User.id := User.id user;
           User.authToken := User.authToken user;
           User.userType := User.userType user;
           User.isActive := true;
           User.firstVisit := User.firstVisit user;
           User.lastActiveAt := now;
           User.ipAddress := User.ipAddress user;
           User.userAgent := User.userAgent user;
           User.metadata := User.metadata user |} in
      (userToken, JsMap.set userToken user' users, out)
  end.

(** The in-memory branch of [DELETE /api/admin/users/:id]: the first entry
    whose user has the id is deleted under its token. *)
Definition deleteUserById (id : string) (users : Users) : Users :=
  match find (fun e => String.eqb (User.id (snd e)) id) users with
  | Some userToDelete => JsMap.remove (fst userToDelete) users
  | None => users
  end.

(** ** Cross-origin requests *)

Definition defaultOrigins : list string :=
  ["https://ai2pdf.in"; "https://www.ai2pdf.in";
   "http://localhost:3000"; "http://localhost:5173"].

(** [process.env.ALLOWED_ORIGINS?.split(',') || [...]]; an array is truthy
    even when empty. *)
Definition allowedOrigins (env : option string) : list string :=
  match env with
  | Some s => splitOn "," s
  | None => defaultOrigins
  end.

(** The [origin] callback handed to [cors]: [Resolved tt] is
    [callback(null, true)], [Rejected m] is [callback(new Error(m))]. *)
Definition checkOrigin (env : option string) (origin : option string)
    (out : list LogEntry) : Outcome unit * list LogEntry :=
  if negb (present origin) then (Resolved tt, out)
  else if existsb (String.eqb (value origin)) (allowedOrigins env) then
    (Resolved tt, out)
  else
    (Rejected "Not allowed by CORS",
     say Log ("Blocked origin: " ++ value origin) out).

(** ** API keys ([validateApiKey] and the routes behind it) *)

(** A row of the key query: the key's columns and, from the left join, the
    plan's limit and name, [None] for SQL [NULL]. *)
Record KeyData := {
  keyId : string;
  keyUserToken : string;
  keyPlanId : option string;
  expiryDate : option Date;
  keyIsActive : option bool;
  requestCount : option Z;
  planRequestLimit : option Z;
  planName : option string
}.

(** [req.apiKey] *)
Record ApiKey := {
  apiKeyId : string;
  apiUserToken : string;
  apiPlanId : option string;
  apiPlanName : option string;
  apiRequestCount : option Z;
  apiRequestLimit : option Z
}.

(** What the middleware does with a request. *)
Inductive Gate :=
| Refuse (code : Z) (error : string)
| LimitExceeded (limit used : option Z)
| Next (apiKey : ApiKey).

(** The number a nullable column counts as in [>=], [+] and [-]. *)
Definition num (o : option Z) : Z :=
  match o with
  | Some z => z
  | None => 0
  end.

(** [authHeader.split(' ')[1]] *)
Definition bearerKey (authHeader : string) : option string :=
  nth_error (splitOn " " authHeader) 1.

Section ApiKeys.

(** [crypto.createHash('sha256').update(k).digest('hex')] *)
Variable sha256 : string -> string.

(** The rows the key query returns for a key hash. *)
Variable query : string -> list KeyData.

Definition validateApiKey (authorization : option string) (now : Date) : Gate :=
  if negb (present authorization)
     || negb (startsWith "Bearer " (value authorization)) then
    Refuse 401 "Missing or invalid authorization header"
  else
    let apiKey := bearerKey (value authorization) in
    if negb (present apiKey) || negb (startsWith "ak_" (value apiKey)) then
      Refuse 401 "Invalid API key format"
    else
      match query (sha256 (value apiKey)) with
      | [] => Refuse 401 "Invalid API key"
      | keyData :: _ =>
          if negb (match keyIsActive keyData with Some b => b | None => false end)
          then Refuse 401 "API key is inactive"
          else if match expiryDate keyData with
                  | Some expiry => now >? expiry
                  | None => false
                  end
          then Refuse 401 "API key has expired"
          else if num (requestCount keyData) >=? num (planRequestLimit keyData)
          then LimitExceeded (planRequestLimit keyData) (requestCount keyData)
          else
            Next {| apiKeyId := keyId keyData;
                    apiUserToken := keyUserToken keyData;
                    apiPlanId := keyPlanId keyData;
                    apiPlanName := planName keyData;
                    apiRequestCount := requestCount keyData;
                    apiRequestLimit := planRequestLimit keyData |}
      end.

(** [POST /convert] behind the middleware: the request count it writes to
    the key's row and the [remainingRequests] it reports. *)
Definition convertCount (apiKey : ApiKey) : Z := num (apiRequestCount apiKey) + 1.

Definition convertRemaining (apiKey : ApiKey) : Z :=
  num (apiRequestLimit apiKey) - num (apiRequestCount apiKey) - 1.

(** [remainingRequests] of [GET /key-info]. *)
Definition keyInfoRemaining (apiKey : ApiKey) : Z :=
  num (apiRequestLimit apiKey) - num (apiRequestCount apiKey).

End ApiKeys.

(** ** Admin access ([requireAdmin]) *)

(** [adminAuthenticated] is the truth of
    [req.session && req.session.adminAuthenticated], [referer] the
    [Referer] header, [nodeEnv] is [process.env.NODE_ENV]. The answer is
    [None] when the request goes on to the route. The lines the middleware
    writes to the console are left out. *)
Definition requireAdmin (adminAuthenticated : bool) (referer : option string)
    (nodeEnv : option string) : option Response :=
  if adminAuthenticated then None
  else
    let referer := if present referer then value referer else "" in
    let hasSecureReferer := includes "/pd-od?accesskey=" referer in
    if hasSecureReferer
       || match nodeEnv with
          | Some e => String.eqb e "development"
          | None => false
          end
    then None
    else Some (Reply 401 (ErrorBody "Unauthorized - Admin session required")).

(** ** More of the worked scenario *)

(** A second upload, and a batch of the two files on a fresh process. *)
Definition demoFile2 : UploadedFile :=
  {| originalname := "notes.docx"; path := "uploads/77c1"; size := 512;
     filename := "77c1"; mimetype := "application/msword" |}.

Definition demoBatch : Event :=
  PostBatch "batch-1" demoUuids (fun _ => 1000) (Some [demoFile; demoFile2])
    demoFields.

(** A process whose store holds the two jobs of [demoStore]. *)
Definition demoBusy : World :=
  {| storage := demoStore; timers := []; console := [] |}.

(** A tool as the admin route passes it to [addTool]. *)
Definition demoTool : MockAdminStorage.Tool :=
  [("name", VJson (JStr "Word Counter")); ("description", VUndefined);
   ("folderName", VJson (JStr "word-counter"));
   ("version", VJson (JStr "v1.0.0")); ("isActive", VJson (JBool true))].

(** A first visit without token. *)
Definition demoVisit : Visit :=
  {| headerToken := None; cookieToken := None;
     agent := Some "curl/8.0"; address := Some "10.0.0.7" |}.

Definition demoTracked : string * Users * list LogEntry :=
  trackUser "tok-1" "user-1" 10 20 demoVisit [] [].

(** A stand-in for the hash and a key table with one key on a plan of ten
    requests, three of them used. *)
Definition demoHash (s : string) : string := "h:" ++ s.

Definition demoRow (used : Z) : KeyData :=
  {| keyId := "key-1"; keyUserToken := "tok-1"; keyPlanId := Some "plan-1";
     expiryDate := Some 5000; keyIsActive := Some true;
     requestCount := Some used; planRequestLimit := Some 10;
     planName := Some "Starter" |}.

Definition demoQuery (used : Z) (hash : string) : list KeyData :=
  if String.eqb hash "h:ak_demo" then [demoRow used] else [].

Definition demoApiKey : ApiKey :=
  {| apiKeyId := "key-1"; apiUserToken := "tok-1"; apiPlanId := Some "plan-1";
     apiPlanName := Some "Starter"; apiRequestCount := Some 3;
     apiRequestLimit := Some 10 |}.
(** * Properties *)

(** ** The insertion-ordered map *)

Section JsMapFacts.
Context {V : Type}.
Implicit Types (m : JsMap.t V) (k : string) (v : V).

Lemma get_set_same k v m : JsMap.get k (JsMap.set k v m) = Some v.
Proof.
  induction m as [|[k' v'] r IH]; simpl.
  - now rewrite String.eqb_refl.
  - destruct (String.eqb k k') eqn:E; simpl; rewrite ?String.eqb_refl, ?E; auto.
Qed.

Lemma get_set_other k k' v m :
  k <> k' -> JsMap.get k' (JsMap.set k v m) = JsMap.get k' m.
Proof.
  intros Hne. apply not_eq_sym in Hne. apply String.eqb_neq in Hne.
  induction m as [|[k0 v0] r IH]; simpl.
  - now rewrite Hne.
  - destruct (String.eqb k k0) eqn:E; simpl.
    + apply String.eqb_eq in E. subst k0. now rewrite Hne.
    + now rewrite IH.
Qed.

Lemma get_remove_same k m : JsMap.get k (JsMap.remove k m) = None.
Proof.
  induction m as [|[k' v'] r IH]; simpl; auto.
  destruct (String.eqb k k') eqn:E; simpl; auto. now rewrite E.
Qed.

Lemma get_remove_other k k' m :
  k <> k' -> JsMap.get k' (JsMap.remove k m) = JsMap.get k' m.
Proof.
  intros Hne. induction m as [|[k0 v0] r IH]; simpl; auto.
  destruct (String.eqb k k0) eqn:E; simpl.
  - apply String.eqb_eq in E. subst k0.
    apply not_eq_sym in Hne. apply String.eqb_neq in Hne. now rewrite Hne.
  - now rewrite IH.
Qed.

Lemma remove_absent k m : JsMap.get k m = None -> JsMap.remove k m = m.
Proof.
  induction m as [|[k' v'] r IH]; simpl; auto.
  destruct (String.eqb k k') eqn:E; simpl; [discriminate|].
  intros H. now rewrite (IH H).
Qed.

Lemma set_absent k v m :
  JsMap.get k m = None -> JsMap.set k v m = (m ++ [(k, v)])%list.
Proof.
  induction m as [|[k' v'] r IH]; simpl; auto.
  destruct (String.eqb k k') eqn:E; [discriminate|].
  intros H. now rewrite (IH H).
Qed.

Lemma get_absent_keys k m : JsMap.get k m = None <-> ~ In k (JsMap.keys m).
Proof.
  induction m as [|[k' v'] r IH]; simpl.
  - tauto.
  - destruct (String.eqb k k') eqn:E.
    + apply String.eqb_eq in E. subst. split; [discriminate|tauto].
    + apply String.eqb_neq in E. rewrite IH. split; [intros H [?|?]|]; try tauto.
      congruence.
Qed.

Lemma keys_set_absent k v m :
  JsMap.get k m = None -> JsMap.keys (JsMap.set k v m) = (JsMap.keys m ++ [k])%list.
Proof.
  intros H. rewrite (set_absent k v m H). unfold JsMap.keys.
  now rewrite map_app.
Qed.

Lemma keys_set_present k v m :
  JsMap.get k m <> None -> JsMap.keys (JsMap.set k v m) = JsMap.keys m.
Proof.
  induction m as [|[k' v'] r IH]; simpl; [congruence|].
  destruct (String.eqb k k') eqn:E; simpl.
  - apply String.eqb_eq in E. now subst.
  - intros H. now rewrite (IH H).
Qed.

(** [set] and [remove] keep the keys of a map distinct. *)
Lemma set_keys_distinct k v m :
  NoDup (JsMap.keys m) -> NoDup (JsMap.keys (JsMap.set k v m)).
Proof.
  intros Hnd. destruct (JsMap.get k m) as [v0|] eqn:E.
  - rewrite keys_set_present; [assumption|congruence].
  - rewrite keys_set_absent by assumption.
    apply NoDup_app; auto.
    + constructor; [simpl; tauto|constructor].
    + intros a Ha [<-|[]]. now apply get_absent_keys in E.
Qed.

Lemma remove_keys_distinct k m :
  NoDup (JsMap.keys m) -> NoDup (JsMap.keys (JsMap.remove k m)).
Proof.
  induction m as [|[k' v'] r IH]; simpl; auto.
  intros Hnd. inversion Hnd as [|? ? Hnotin Hnd']; subst.
  destruct (String.eqb k k'); simpl; auto.
  constructor; auto. intros Hin. apply Hnotin.
  unfold JsMap.keys, JsMap.remove in Hin. apply in_map_iff in Hin.
  destruct Hin as ([k0 v0] & <- & Hin). apply filter_In in Hin.
  apply in_map_iff. exists (k0, v0). tauto.
Qed.

End JsMapFacts.

(** ** Store operations *)


Lemma update_present id updates st existing :
  MockStorage.getConversion id st = Some existing ->
  MockStorage.updateConversion id updates st =
    (Some (merge existing updates), JsMap.set id (merge existing updates) st).
Proof.
  unfold MockStorage.getConversion, MockStorage.updateConversion.
  now intros ->.
Qed.

Lemma update_absent id updates st :
  MockStorage.getConversion id st = None ->
  MockStorage.updateConversion id updates st = (None, st).
Proof.
  unfold MockStorage.getConversion, MockStorage.updateConversion.
  now intros ->.
Qed.

Lemma update_other id id' updates st :
  id <> id' ->
  MockStorage.getConversion id' (snd (MockStorage.updateConversion id updates st)) =
  MockStorage.getConversion id' st.
Proof.
  intros Hne. unfold MockStorage.updateConversion, MockStorage.getConversion.
  destruct (JsMap.get id st); simpl; auto using get_set_other.
Qed.

(** C7: [updateConversion] on a stored id merges: the returned record is the
    one [getConversion] reads afterwards; each of its eleven keys holds the
    value given in [updates] when [updates] has the key and the prior value
    when it has not; and the records under other ids are as before. *)
Theorem update_is_partial_merge id updates st existing :
  MockStorage.getConversion id st = Some existing ->
  exists updated,
    fst (MockStorage.updateConversion id updates st) = Some updated /\
    MockStorage.getConversion id (snd (MockStorage.updateConversion id updates st))
      = Some updated /\
    mergedKey (Conversion.id existing) (Partial.id updates) (Conversion.id updated) /\
    mergedKey (Conversion.fromFormat existing) (Partial.fromFormat updates)
      (Conversion.fromFormat updated) /\
    mergedKey (Conversion.toFormat existing) (Partial.toFormat updates)
      (Conversion.toFormat updated) /\
    mergedKey (Conversion.originalFilename existing) (Partial.originalFilename updates)
      (Conversion.originalFilename updated) /\
    mergedKey (Conversion.filePath existing) (Partial.filePath updates)
      (Conversion.filePath updated) /\
    mergedKey (Conversion.fileSize existing) (Partial.fileSize updates)
      (Conversion.fileSize updated) /\
    mergedKey (Conversion.status existing) (Partial.status updates)
      (Conversion.status updated) /\
    mergedKey (Conversion.downloadUrl existing) (Partial.downloadUrl updates)
      (Conversion.downloadUrl updated) /\
    mergedKey (Conversion.createdAt existing) (Partial.createdAt updates)
      (Conversion.createdAt updated) /\
    mergedKey (Conversion.completedAt existing) (Partial.completedAt updates)
      (Conversion.completedAt updated) /\
    mergedKey (Conversion.metadata existing) (Partial.metadata updates)
      (Conversion.metadata updated) /\
    forall id', id <> id' ->
      MockStorage.getConversion id'
        (snd (MockStorage.updateConversion id updates st)) =
      MockStorage.getConversion id' st.
Proof.
  intros Hget. exists (merge existing updates).
  rewrite (update_present _ updates _ _ Hget). simpl.
  split; [reflexivity|]. split; [apply get_set_same|].
  destruct updates as [i ff tf onm fp fs s du ca co md]. simpl.
  repeat split;
    try (match goal with |- mergedKey _ ?u _ => destruct u; reflexivity end).
  intros id' Hne. unfold MockStorage.getConversion. now apply get_set_other.
Qed.

(** C8: [deleteConversion] answers whether the id was stored; on an absent
    id it answers [false] and leaves the store as it is; and a delete that
    follows a delete of the same id answers [false]. *)
Theorem delete_reports_existence id st :
  (fst (MockStorage.deleteConversion id st) = true <->
     exists c, MockStorage.getConversion id st = Some c) /\
  (MockStorage.getConversion id st = None ->
     MockStorage.deleteConversion id st = (false, st)) /\
  MockStorage.getConversion id (snd (MockStorage.deleteConversion id st)) = None /\
  fst (MockStorage.deleteConversion id (snd (MockStorage.deleteConversion id st)))
    = false.
Proof.
  unfold MockStorage.deleteConversion, MockStorage.getConversion, JsMap.has. simpl.
  split; [split|split; [|split]].
  - destruct (JsMap.get id st) as [c|]; [eauto|discriminate].
  - intros [c ->]. reflexivity.
  - intros H. rewrite H. f_equal. now apply remove_absent.
  - apply get_remove_same.
  - now rewrite get_remove_same.
Qed.

(** ** Batch creation *)


Lemma members_length b n uuids nows i rest :
  length (members b n uuids nows i rest) = length rest.
Proof. revert i. induction rest; simpl; auto. Qed.

Lemma members_ids b n uuids nows i rest :
  map Conversion.id (members b n uuids nows i rest) =
  map uuids (seq i (length rest)).
Proof. revert i. induction rest as [|c r IH]; simpl; intros; f_equal; auto. Qed.

Lemma members_nth b n uuids nows i rest k conv :
  nth_error rest k = Some conv ->
  nth_error (members b n uuids nows i rest) k =
  Some (member b n uuids nows (i + k) conv).
Proof.
  revert i k. induction rest as [|c r IH]; intros i [|k]; simpl; try discriminate.
  - intros [= ->]. now rewrite Nat.add_0_r.
  - intros H. rewrite (IH (S i) k H). do 2 f_equal. lia.
Qed.

(** With ids that are new to the store and distinct, the loop returns the
    members in order and appends them to the map in that order. *)
Lemma createBatchLoop_fresh b n uuids nows rest : forall i results st,
  NoDup (map uuids (seq i (length rest))) ->
  (forall id, In id (map uuids (seq i (length rest))) -> JsMap.get id st = None) ->
  MockStorage.createBatchLoop b n uuids nows i rest results st =
  ((results ++ members b n uuids nows i rest)%list,
   (st ++ map entry (members b n uuids nows i rest))%list).
Proof.
  induction rest as [|conv r IH]; intros i results st Hnd Hfresh; simpl.
  - now rewrite !app_nil_r.
  - simpl in Hnd, Hfresh. inversion Hnd as [|x l Hnotin Hnd']; subst.
    rewrite IH; auto.
    + rewrite <- app_assoc. simpl. f_equal.
      rewrite set_absent by auto. rewrite <- app_assoc. reflexivity.
    + intros id Hin. rewrite get_set_other; auto.
      intros <-. contradiction.
Qed.

Lemma get_app {V : Type} k (m m' : JsMap.t V) :
  JsMap.get k (m ++ m')%list =
  match JsMap.get k m with Some v => Some v | None => JsMap.get k m' end.
Proof.
  induction m as [|[k' v'] r IH]; simpl; auto.
  destruct (String.eqb k k'); auto.
Qed.


Lemma get_entries_nth (cs : list Conversion.t) : forall k c,
  NoDup (map Conversion.id cs) ->
  nth_error cs k = Some c ->
  JsMap.get (Conversion.id c) (map entry cs) = Some c.
Proof.
  induction cs as [|c0 r IH]; intros [|k] c Hnd; simpl; try discriminate.
  - intros [= ->]. now rewrite String.eqb_refl.
  - intros Hk. inversion Hnd as [|x l Hnotin Hnd']; subst.
    destruct (String.eqb (Conversion.id c) (Conversion.id c0)) eqn:E.
    + apply String.eqb_eq in E. exfalso. apply Hnotin. rewrite <- E.
      apply in_map. eapply nth_error_In; eauto.
    + eauto.
Qed.

Lemma member_inBatch b n uuids nows i conv :
  MockStorage.inBatch b (member b n uuids nows i conv) = true.
Proof.
  unfold MockStorage.inBatch, member, prop. simpl.
  rewrite get_set_other by discriminate. rewrite get_set_same.
  apply String.eqb_refl.
Qed.

Lemma filter_all {A : Type} (p : A -> bool) (l : list A) :
  (forall x, In x l -> p x = true) -> filter p l = l.
Proof.
  induction l as [|x r IH]; simpl; intros H; auto.
  rewrite (H x) by auto. f_equal. auto.
Qed.

Lemma filter_none {A : Type} (p : A -> bool) (l : list A) :
  (forall x, In x l -> p x = false) -> filter p l = [].
Proof.
  induction l as [|x r IH]; simpl; intros H; auto.
  rewrite (H x) by auto. auto.
Qed.

Lemma members_inBatch b n uuids nows i rest c :
  In c (members b n uuids nows i rest) -> MockStorage.inBatch b c = true.
Proof.
  revert i. induction rest as [|conv r IH]; simpl; intros i; [tauto|].
  intros [<-|H]; eauto using member_inBatch.
Qed.

Lemma values_entries (cs : list Conversion.t) : JsMap.values (map entry cs) = cs.
Proof.
  unfold JsMap.values. rewrite map_map. simpl. apply map_id.
Qed.

Lemma get_indexed_batchId {A : Type} (l : list A) : forall i,
  JsMap.get "batchId" (indexed i l) = None.
Proof.
  induction l as [|x r IH]; simpl; intros i; [reflexivity|].
  rewrite IH. unfold index_key. now destruct (Nat.to_uint i).
Qed.

(** A record whose metadata object does not hold the batch id is not listed
    for it, whatever else its metadata is. *)
Lemma not_inBatch b c :
  (forall props, Conversion.metadata c = JObj props ->
     JsMap.get "batchId" props <> Some (JStr b)) ->
  MockStorage.inBatch b c = false.
Proof.
  intros H. unfold MockStorage.inBatch, prop.
  destruct (Conversion.metadata c) as [| | |s|l|props]; simpl;
    rewrite ?andb_false_r; try reflexivity.
  - now rewrite get_indexed_batchId.
  - specialize (H props eq_refl).
    destruct (JsMap.get "batchId" props) as [[| | |s| |]|]; try reflexivity.
    apply String.eqb_neq. congruence.
Qed.


(** The metadata of a member, key by key. *)
Lemma member_metadata b n uuids nows i conv :
  exists props,
    Conversion.metadata (member b n uuids nows i conv) = JObj props /\
    JsMap.get "batchId" props = Some (JStr b) /\
    JsMap.get "batchSize" props = Some (JNum (Z.of_nat n)) /\
    (forall callerProps k,
       InsertConversion.metadata conv = Some (JObj callerProps) ->
       k <> "batchId" -> k <> "batchSize" ->
       JsMap.get k props = JsMap.get k callerProps) /\
    (InsertConversion.metadata conv = None \/
     InsertConversion.metadata conv = Some JNull ->
     props = [("batchId", JStr b); ("batchSize", JNum (Z.of_nat n))]).
Proof.
  unfold member. simpl. eexists. split; [reflexivity|].
  split; [|split; [|split]].
  - rewrite get_set_other by discriminate. apply get_set_same.
  - apply get_set_same.
  - intros callerProps k Hmd H1 H2. rewrite Hmd. simpl.
    rewrite !get_set_other; auto.
  - intros [Hmd|Hmd]; rewrite Hmd; reflexivity.
Qed.


(** ** Download *)

(** C6: [GET /api/download/:id] answers 404 "Conversion not found" for an
    id that is not stored; 400 "Conversion not completed", which is not the
    404 answer, for a stored job whose status is not [completed]; and for a
    completed job the file when it can be accessed at the stored path and
    404 "File not found" when it cannot. *)
Theorem download_outcomes extname basename access id w :
  (MockStorage.getConversion id (storage w) = None ->
     download extname basename access id w
       = Reply 404 (ErrorBody "Conversion not found")) /\
  (forall c, MockStorage.getConversion id (storage w) = Some c ->
     Conversion.status c <> "completed" ->
     download extname basename access id w
       = Reply 400 (ErrorBody "Conversion not completed")) /\
  (forall c, MockStorage.getConversion id (storage w) = Some c ->
     Conversion.status c = "completed" ->
     (access (Conversion.filePath c) = true ->
        download extname basename access id w
          = Download (Conversion.filePath c)
              (basename (Conversion.originalFilename c)
                 (extname (Conversion.originalFilename c))
               ++ "_converted." ++ Conversion.toFormat c)) /\
     (access (Conversion.filePath c) = false ->
        download extname basename access id w
          = Reply 404 (ErrorBody "File not found"))) /\
  Reply 400 (ErrorBody "Conversion not completed")
    <> Reply 404 (ErrorBody "Conversion not found").
Proof.
  unfold download. split; [|split; [|split]].
  - now intros ->.
  - intros c -> Hs. apply String.eqb_neq in Hs. now rewrite Hs.
  - intros c -> ->. simpl. split; now intros ->.
  - discriminate.
Qed.

(** ** The insert schema *)

Lemma textColumn_nil column s : textColumn column s = [] <-> textFits s.
Proof.
  unfold textColumn, textFits.
  destruct (Z.of_nat (String.length s) >? 65535) eqn:E;
    rewrite Z.gtb_ltb in E.
  - apply Z.ltb_lt in E. split; [discriminate|lia].
  - apply Z.ltb_ge in E. tauto.
Qed.

Lemma intColumn_nil column n : intColumn column n = [] <-> int32 n.
Proof.
  unfold intColumn, int32.
  destruct (n <? -2147483648) eqn:E1.
  - apply Z.ltb_lt in E1. split; [discriminate|lia].
  - apply Z.ltb_ge in E1. destruct (n >? 2147483647) eqn:E2;
      rewrite Z.gtb_ltb in E2.
    + apply Z.ltb_lt in E2. split; [discriminate|lia].
    + apply Z.ltb_ge in E2. split; [lia|reflexivity].
Qed.

(** The schema finds no issue in the data of an upload exactly when the
    upload is storable: the metadata never matter, and the status the
    handler writes always fits. *)
Lemma schemaIssues_storable r f file ps :
  schemaIssues (conversionData r f file ps) = [] <-> storable f file.
Proof.
  unfold schemaIssues, conversionData, storable.
  cbn [InsertConversion.fromFormat InsertConversion.toFormat
       InsertConversion.originalFilename InsertConversion.filePath
       InsertConversion.fileSize InsertConversion.status
       InsertConversion.downloadUrl optionalColumn].
  change (textColumn "status" "pending") with (@nil ZodIssue.t).
  rewrite !app_nil_r.
  rewrite <- !textColumn_nil with (column := "fromFormat") (s := value (fromFormat f)).
  rewrite <- (textColumn_nil "toFormat" (value (toFormat f))).
  rewrite <- (textColumn_nil "originalFilename" (originalname file)).
  rewrite <- (textColumn_nil "filePath" (path file)).
  rewrite <- (intColumn_nil "fileSize" (size file)).
  split.
  - intros H.
    apply app_eq_nil in H. destruct H as [H1 H].
    apply app_eq_nil in H. destruct H as [H2 H].
    apply app_eq_nil in H. destruct H as [H3 H].
    apply app_eq_nil in H. destruct H as [H4 H5]. auto.
  - intros (H1 & H2 & H3 & H4 & H5). now rewrite H1, H2, H3, H4, H5.
Qed.

Lemma parse_inl data validated :
  insertConversionSchema_parse data = inl validated -> validated = data.
Proof.
  unfold insertConversionSchema_parse.
  destruct (schemaIssues data); [now intros [= <-]|discriminate].
Qed.

Lemma parse_storable r f file ps :
  storable f file ->
  insertConversionSchema_parse (conversionData r f file ps)
  = inl (conversionData r f file ps).
Proof.
  intros H. unfold insertConversionSchema_parse.
  now rewrite (proj2 (schemaIssues_storable r f file ps) H).
Qed.

Lemma parse_unstorable r f file ps :
  ~ storable f file ->
  exists issue issues,
    insertConversionSchema_parse (conversionData r f file ps)
    = inr (issue :: issues).
Proof.
  intros H. unfold insertConversionSchema_parse.
  destruct (schemaIssues (conversionData r f file ps)) as [|issue issues] eqn:E.
  - apply schemaIssues_storable in E. contradiction.
  - eauto.
Qed.

Lemma parseEach_inl l : forall validated,
  parseEach l = inl validated -> validated = l.
Proof.
  induction l as [|d r IH]; simpl; intros validated.
  - now intros [= <-].
  - destruct (insertConversionSchema_parse d) as [v|issues] eqn:E;
      [|discriminate].
    apply parse_inl in E. subst v.
    destruct (parseEach r) as [vs|issues]; [|discriminate].
    intros [= <-]. now rewrite (IH vs eq_refl).
Qed.

Lemma parseEach_storable f ps files :
  (forall file, In file files -> storable f file) ->
  parseEach (map (fun file => conversionData Batch f file ps) files)
  = inl (map (fun file => conversionData Batch f file ps) files).
Proof.
  induction files as [|file r IH]; simpl; intros H; [reflexivity|].
  rewrite parse_storable by auto. now rewrite IH by auto.
Qed.


(** Whether an upload is storable can be decided. *)
Lemma storable_dec f file : storable f file \/ ~ storable f file.
Proof.
  destruct (schemaIssues (conversionData Single f file JNull)) eqn:E.
  - left. now apply schemaIssues_storable in E.
  - right. intros H. apply (schemaIssues_storable Single f file JNull) in H.
    congruence.
Qed.

(** ** Submission *)


Lemma missingFormats_false f :
  present (fromFormat f) = true -> present (toFormat f) = true ->
  missingFormats f = false.
Proof. unfold missingFormats. now intros -> ->. Qed.

(** What [submit] does with a file, both formats and data that pass the
    schema. *)
Lemma submit_valid JSON_parse r uuid now file f w :
  missingFormats f = false ->
  storable f file ->
  submit JSON_parse r uuid now (Some file) f w =
  (let ps := parseSettings JSON_parse (settings f) (console w) in
   let made :=
     MockStorage.createConversion uuid now
       (conversionData r f file (fst ps)) (storage w) in
   (Reply (match r with Legacy => 200 | Single | Batch => 201 end)
      (ConversionBody (fst made)),
    {| storage := snd made;
       timers := timers w ++
         [{| route := r; conversionId := uuid; delay := 100;
             processingTime := baseTime (quality f); started := false |}];
       console := snd ps |})).
Proof.
  intros H Hs. unfold submit. rewrite H.
  destruct (parseSettings JSON_parse (settings f) (console w)) as [ps out].
  now rewrite (parse_storable r f file ps Hs).
Qed.

(** What [submit] does when a format is missing or empty. *)
Lemma submit_invalid JSON_parse r uuid now file f w :
  missingFormats f = true ->
  snd (submit JSON_parse r uuid now file f w) = w.
Proof.
  intros H. unfold submit. rewrite H. now destruct file, r.
Qed.

(** What [submit] does with a file and both formats when the data fail the
    schema. *)
Lemma submit_unstorable JSON_parse r uuid now file f w :
  missingFormats f = false ->
  ~ storable f file ->
  exists issue issues,
    submit JSON_parse r uuid now (Some file) f w =
    (Reply 400 (InvalidBody "Invalid data" (issue :: issues)),
     {| storage := storage w; timers := timers w;
        console := snd (parseSettings JSON_parse (settings f) (console w)) |}).
Proof.
  intros H Hs. unfold submit. rewrite H.
  destruct (parseSettings JSON_parse (settings f) (console w)) as [ps out].
  destruct (parse_unstorable r f file ps Hs) as (issue & issues & ->).
  eauto.
Qed.



(** ** The lifecycle task *)

Lemma mockUpdate_eq id updates st :
  mockUpdate id updates st =
  (Resolved (fst (MockStorage.updateConversion id updates st)),
   snd (MockStorage.updateConversion id updates st)).
Proof.
  unfold mockUpdate. now destruct (MockStorage.updateConversion id updates st).
Qed.

(** The first update goes through: the task stops there. *)
Lemma task_completes tm now st faults out :
  hd false faults = false ->
  task Flaky.updateConversion tm now (st, faults) out =
  (Resolved tt,
   (snd (MockStorage.updateConversion (conversionId tm)
           (completedFields (conversionId tm) now) st), tl faults),
   doneLines (route tm) (conversionId tm)
     (updateLine (route tm) (conversionId tm) out)).
Proof.
  intros H. unfold task, Flaky.updateConversion. simpl.
  destruct faults as [|[|] rest]; try discriminate; simpl;
    rewrite mockUpdate_eq; reflexivity.
Qed.

(** The first update is rejected and the second goes through: the task
    reports the error and writes [failedFields], once. *)
Lemma task_fails tm now st faults out :
  hd false faults = false ->
  task Flaky.updateConversion tm now (st, true :: faults) out =
  (Resolved tt,
   (snd (MockStorage.updateConversion (conversionId tm) failedFields st),
    tl faults),
   say Error (errorPrefix (route tm) (conversionId tm) ++ " "
              ++ "storage unavailable")
     (updateLine (route tm) (conversionId tm) out)).
Proof.
  intros H. unfold task, Flaky.updateConversion. simpl.
  destruct faults as [|[|] rest]; try discriminate; simpl;
    rewrite mockUpdate_eq; reflexivity.
Qed.

(** Both updates are rejected: the store is as before and the promise of
    the callback is rejected. *)
Lemma task_gives_up tm now st faults out :
  task Flaky.updateConversion tm now (st, true :: true :: faults) out =
  (Rejected "storage unavailable", (st, faults),
   say Error (errorPrefix (route tm) (conversionId tm) ++ " "
              ++ "storage unavailable")
     (updateLine (route tm) (conversionId tm) out)).
Proof. reflexivity. Qed.

(** A started timer that fires runs its task and is gone. *)
Lemma fire_pending n now faults w tm :
  nth_error (timers w) n = Some tm ->
  started tm = true ->
  storage (fire n now faults w) = firedStore (conversionId tm) now faults (storage w) /\
  timers (fire n now faults w) = drop_nth n (timers w).
Proof.
  intros H Hs. unfold fire. rewrite H, Hs.
  destruct faults as [|[|] [|[|] rest]]; unfold firedStore;
    first [ rewrite task_gives_up
          | rewrite task_fails by reflexivity
          | rewrite task_completes by reflexivity ];
    simpl; auto.
Qed.

(** A timer that has not started fires by starting: the store is as it
    was. *)
Lemma fire_starts n now faults w tm :
  nth_error (timers w) n = Some tm ->
  started tm = false ->
  fire n now faults w =
  {| storage := storage w;
     timers := start_nth n (timers w);
     console := startLine (route tm) (conversionId tm) (console w) |}.
Proof. intros H Hs. unfold fire. now rewrite H, Hs. Qed.

Lemma fire_nothing n now faults w :
  nth_error (timers w) n = None -> fire n now faults w = w.
Proof. intros H. unfold fire. now rewrite H. Qed.

Lemma start_nth_ids l : forall n,
  map conversionId (start_nth n l) = map conversionId l.
Proof.
  induction l as [|tm r IH]; intros [|n]; simpl; auto. now rewrite IH.
Qed.

Lemma start_nth_in l : forall n tm',
  In tm' (start_nth n l) ->
  exists tm, In tm l /\ conversionId tm = conversionId tm'.
Proof.
  induction l as [|tm r IH]; intros [|n] tm'; simpl; try tauto.
  - intros [<-|H]; eauto.
  - intros [<-|H]; eauto. destruct (IH n tm' H) as (x & Hx & E). eauto.
Qed.


(** How a firing timer changes the store: not at all, or by the update of a
    started timer. *)
Lemma fire_store n now faults w :
  storage (fire n now faults w) = storage w \/
  exists tm,
    nth_error (timers w) n = Some tm /\ started tm = true /\
    storage (fire n now faults w)
      = firedStore (conversionId tm) now faults (storage w) /\
    timers (fire n now faults w) = drop_nth n (timers w).
Proof.
  destruct (nth_error (timers w) n) as [tm|] eqn:En;
    [|left; now rewrite fire_nothing].
  destruct (started tm) eqn:Es.
  - right. exists tm. destruct (fire_pending n now faults w tm En Es). auto.
  - left. now rewrite (fire_starts n now faults w tm En Es).
Qed.



(** ** The invariant of the process *)

Lemma get_entries_some id (cs : list Conversion.t) c :
  JsMap.get id (map entry cs) = Some c -> In c cs /\ Conversion.id c = id.
Proof.
  induction cs as [|c0 r IH]; simpl; [discriminate|].
  destruct (String.eqb id (Conversion.id c0)) eqn:E.
  - apply String.eqb_eq in E. intros [= ->]. auto.
  - intros H. destruct (IH H). auto.
Qed.

Lemma get_remove_some {V : Type} k k' (m : JsMap.t V) v :
  JsMap.get k' (JsMap.remove k m) = Some v -> JsMap.get k' m = Some v.
Proof.
  destruct (string_dec k k') as [->|Hne].
  - now rewrite get_remove_same.
  - now rewrite get_remove_other.
Qed.

Lemma drop_nth_in {A B : Type} (f : A -> B) (l : list A) : forall n x y,
  NoDup (map f l) -> nth_error l n = Some x -> In y (drop_nth n l) ->
  In y l /\ f y <> f x.
Proof.
  induction l as [|a r IH]; intros [|n] x y Hnd; simpl; try discriminate;
    inversion Hnd as [|? ? Hnotin Hnd']; subst.
  - intros [= ->] Hy. split; auto. intros E. apply Hnotin. rewrite <- E.
    now apply in_map.
  - intros Hn [->|Hy].
    + split; auto. intros E. apply Hnotin. rewrite E.
      apply in_map. eapply nth_error_In; eauto.
    + destruct (IH n x y Hnd' Hn Hy). auto.
Qed.

Lemma drop_nth_nodup {A B : Type} (f : A -> B) (l : list A) : forall n,
  NoDup (map f l) -> NoDup (map f (drop_nth n l)).
Proof.
  induction l as [|a r IH]; intros [|n] Hnd; simpl; auto;
    inversion Hnd as [|? ? Hnotin Hnd']; subst; auto.
  constructor; auto. intros Hin. apply Hnotin.
  apply in_map_iff in Hin. destruct Hin as (y & <- & Hy).
  apply in_map. clear -Hy. revert n Hy.
  induction r as [|b r IH]; intros [|n]; simpl; auto.
  intros [->|H]; eauto.
Qed.

Lemma pending_wellFormed id c :
  Conversion.id c = id -> pendingJob c -> wellFormed id c.
Proof. unfold wellFormed. auto. Qed.

Lemma lifecycleStep_same o : lifecycleStep o o.
Proof. destruct o; simpl; auto. Qed.

Lemma grown_consistent w w' : consistent w -> grown w w' -> consistent w'.
Proof.
  intros (I1 & I2 & I3) (cs & tms & out & -> & Htm & Hnd & Hpend & Hun).
  unfold consistent, MockStorage.getConversion in *. simpl.
  split; [|split].
  - intros id c. rewrite get_app.
    destruct (JsMap.get id (storage w)) as [c0|] eqn:E.
    + intros [= <-]. eauto.
    + intros H. apply get_entries_some in H. destruct H.
      apply pending_wellFormed; auto.
  - intros tm c Hin. rewrite get_app.
    destruct (JsMap.get (conversionId tm) (storage w)) as [c0|] eqn:E.
    + intros [= <-]. apply in_app_or in Hin. destruct Hin as [Hin|Hin]; eauto.
      exfalso. apply (in_map conversionId) in Hin. rewrite Htm in Hin.
      apply in_map_iff in Hin. destruct Hin as (c1 & Hid & Hc1).
      destruct (Hun c1 Hc1) as [Hnone _]. rewrite Hid in Hnone. congruence.
    + intros H. apply get_entries_some in H. destruct H. auto.
  - rewrite map_app. apply NoDup_app; auto.
    + now rewrite Htm.
    + intros id Hold Hnew. rewrite Htm in Hnew.
      apply in_map_iff in Hnew. destruct Hnew as (c1 & Hid & Hc1).
      destruct (Hun c1 Hc1) as [_ Hnot]. rewrite Hid in Hnot. contradiction.
Qed.

Lemma grown_status w w' id :
  grown w w' -> lifecycleStep (statusOf id w) (statusOf id w').
Proof.
  intros (cs & tms & out & -> & Htm & Hnd & Hpend & Hun).
  unfold statusOf, MockStorage.getConversion. simpl. rewrite get_app.
  destruct (JsMap.get id (storage w)) as [c0|] eqn:E; simpl; auto.
  destruct (JsMap.get id (map entry cs)) as [c|] eqn:E'; simpl; auto.
  apply get_entries_some in E'. destruct E' as [Hin _].
  now destruct (Hpend c Hin).
Qed.

Lemma firedStore_cases id now faults st :
  firedStore id now faults st = st \/
  exists c, MockStorage.getConversion id st = Some c /\
    (firedStore id now faults st
       = JsMap.set id (merge c (completedFields id now)) st \/
     firedStore id now faults st = JsMap.set id (merge c failedFields) st).
Proof.
  destruct (MockStorage.getConversion id st) as [c|] eqn:E.
  - destruct faults as [|[|] [|[|] rest]]; simpl; auto;
      right; exists c; rewrite (update_present _ _ _ _ E); simpl; auto.
  - left. destruct faults as [|[|] [|[|] rest]]; simpl;
      rewrite ?(update_absent _ _ _ E); auto.
Qed.

Lemma fire_consistent n now faults w :
  consistent w -> consistent (fire n now faults w).
Proof.
  intros (I1 & I2 & I3).
  destruct (nth_error (timers w) n) as [tm|] eqn:En;
    [|rewrite fire_nothing by assumption; exact (conj I1 (conj I2 I3))].
  destruct (started tm) eqn:Es.
  2:{ rewrite (fire_starts n now faults w tm En Es).
      unfold consistent. simpl. split; [exact I1|]. split.
      - intros tm' c Hin Hc.
        destruct (start_nth_in _ _ _ Hin) as (tm0 & Hin0 & E).
        rewrite <- E in Hc. eauto.
      - now rewrite start_nth_ids. }
  destruct (fire_pending n now faults w tm En Es) as [Hst Htm].
  assert (Htimers : forall tm' c,
            In tm' (drop_nth n (timers w)) ->
            JsMap.get (conversionId tm') (storage w) = Some c -> pendingJob c).
  { intros tm' c Hin. destruct (drop_nth_in conversionId _ _ _ _ I3 En Hin). eauto. }
  unfold consistent. rewrite Hst, Htm.
  split; [|split]; [| |now apply drop_nth_nodup].
  - destruct (firedStore_cases (conversionId tm) now faults (storage w))
      as [->|(c & Hc & [->| ->])]; auto;
      intros id c'; unfold MockStorage.getConversion;
      (destruct (string_dec (conversionId tm) id) as [<-|Hne];
       [rewrite get_set_same | rewrite get_set_other by assumption; apply I1]);
      intros [= <-];
      destruct (I1 _ _ Hc) as [Hid _];
      destruct (I2 tm c (nth_error_In _ _ En) Hc) as (Hs & Hd & Ht);
      split; auto; right.
    + left. repeat split. discriminate.
    + right. repeat split; assumption.
  - intros tm' c' Hin.
    destruct (drop_nth_in conversionId _ _ _ _ I3 En Hin) as [Hin' Hne].
    destruct (firedStore_cases (conversionId tm) now faults (storage w))
      as [->|(c & Hc & [->| ->])]; unfold MockStorage.getConversion;
      rewrite ?get_set_other by auto; eauto.
Qed.

Lemma fire_status n now faults w id :
  consistent w ->
  lifecycleStep (statusOf id w) (statusOf id (fire n now faults w)).
Proof.
  intros (I1 & I2 & I3).
  destruct (fire_store n now faults w) as [E|(tm & En & _ & Hst & _)];
    [unfold statusOf; rewrite E; apply lifecycleStep_same|].
  unfold statusOf. rewrite Hst.
  destruct (firedStore_cases (conversionId tm) now faults (storage w))
    as [->|(c & Hc & Hcase)]; [apply lifecycleStep_same|].
  destruct (I2 tm c (nth_error_In _ _ En) Hc) as (Hs & _).
  unfold MockStorage.getConversion in *.
  destruct (string_dec (conversionId tm) id) as [<-|Hne].
  - rewrite Hc. destruct Hcase as [-> | ->]; rewrite get_set_same; simpl; auto.
  - destruct Hcase as [-> | ->]; rewrite get_set_other by assumption;
      apply lifecycleStep_same.
Qed.

Lemma delete_consistent id w : consistent w -> consistent (snd (deleteJob id w)).
Proof.
  intros (I1 & I2 & I3). unfold consistent, deleteJob, MockStorage.getConversion.
  simpl. split; [|split]; auto.
  - intros id' c H. apply get_remove_some in H. eauto.
  - intros tm c Hin H. apply get_remove_some in H. eauto.
Qed.

Lemma delete_status id w id' :
  lifecycleStep (statusOf id' w) (statusOf id' (snd (deleteJob id w))).
Proof.
  unfold statusOf, deleteJob, MockStorage.getConversion. simpl.
  destruct (string_dec id id') as [->|Hne].
  - rewrite get_remove_same. simpl. now destruct (JsMap.get id' (storage w)).
  - rewrite get_remove_other by assumption. apply lifecycleStep_same.
Qed.

(** ** Submissions grow the world *)

Lemma created_pending uuid now r f file ps st :
  pendingJob (fst (MockStorage.createConversion uuid now
                     (conversionData r f file ps) st)).
Proof. repeat split. Qed.

(** The two ways an upload with a file and both formats can go. *)
Ltac submit_cases JSON_parse r uuid now file f w Ep :=
  let Hok := fresh "Hok" in
  let Hbad := fresh "Hbad" in
  let issue := fresh "issue" in
  let issues := fresh "issues" in
  destruct (storable_dec f file) as [Hok|Hbad];
  [ rewrite (submit_valid JSON_parse r uuid now file f w Ep Hok)
  | destruct (submit_unstorable JSON_parse r uuid now file f w Ep Hbad)
      as (issue & issues & ->) ].

(** A world that differs in its console only has grown by no job. *)
Lemma grown_quiet w out :
  grown w {| storage := storage w; timers := timers w; console := out |}.
Proof.
  exists [], [], out. simpl. rewrite !app_nil_r.
  split; [reflexivity|]. split; [reflexivity|]. split; [constructor|].
  split; intros c [].
Qed.

Lemma submit_grows JSON_parse r uuid now file f w :
  unused uuid w ->
  snd (submit JSON_parse r uuid now file f w) = w \/
  grown w (snd (submit JSON_parse r uuid now file f w)).
Proof.
  intros Hun.
  destruct (missingFormats f) eqn:Ep; [left; now apply submit_invalid|].
  destruct file as [file|]; [|left; destruct r; reflexivity].
  right. destruct (storable_dec f file) as [Hok|Hbad].
  2:{ destruct (submit_unstorable JSON_parse r uuid now file f w Ep Hbad)
        as (issue & issues & ->).
      apply grown_quiet. }
  rewrite (submit_valid JSON_parse r uuid now file f w Ep Hok). simpl.
  set (c := fst (MockStorage.createConversion uuid now
                   (conversionData r f file
                      (fst (parseSettings JSON_parse (settings f) (console w))))
                   (storage w))).
  exists [c]. eexists. eexists. split; [|split; [|split; [|split]]].
  - destruct Hun as [Hnone _]. rewrite (set_absent _ _ _ Hnone). reflexivity.
  - reflexivity.
  - simpl. constructor; [simpl; tauto|constructor].
  - intros c' [<-|[]]. apply created_pending.
  - intros c' [<-|[]]. exact Hun.
Qed.

Lemma batchTimers_ids q cs : forall i,
  map conversionId (batchTimers q i cs) = map Conversion.id cs.
Proof. induction cs as [|c r IH]; simpl; intros; f_equal; auto. Qed.

Lemma members_pending b n uuids nows rest : forall i c,
  (forall conv, In conv rest ->
     InsertConversion.status conv = Some "pending" /\
     InsertConversion.downloadUrl conv = None) ->
  In c (members b n uuids nows i rest) -> pendingJob c.
Proof.
  induction rest as [|conv r IH]; simpl; intros i c Hall; [tauto|].
  intros [<-|Hin]; [|eapply IH; eauto].
  destruct (Hall conv (or_introl eq_refl)) as [Hs Hd].
  unfold pendingJob, member. simpl. rewrite Hs, Hd. auto.
Qed.

Lemma postBatch_grows JSON_parse batchId uuids nows files f w :
  allowed (PostBatch batchId uuids nows files f) w ->
  snd (postBatch JSON_parse batchId uuids nows files f w) = w \/
  grown w (snd (postBatch JSON_parse batchId uuids nows files f w)).
Proof.
  intros [Hnd Hun]. unfold postBatch.
  destruct files as [[|file0 files]|]; auto.
  set (fs := file0 :: files) in *.
  destruct (missingFormats f); auto.
  destruct (parseSettings JSON_parse (settings f) (console w)) as [ps out].
  set (specs := map (fun file => conversionData Batch f file ps) fs).
  assert (Hlen : length specs = length fs) by apply length_map.
  destruct (parseEach specs) as [validated|issues] eqn:Epe;
    [|right; apply grown_quiet].
  apply parseEach_inl in Epe. subst validated.
  unfold MockStorage.createBatchConversion. unfold drawn in *.
  rewrite createBatchLoop_fresh.
  - right. simpl.
    set (ms := members batchId (length specs) uuids nows 0 specs).
    assert (Hids : map Conversion.id ms = map uuids (seq 0 (length fs))).
    { unfold ms. rewrite members_ids. now rewrite Hlen. }
    exists ms, (batchTimers (quality f) 0 ms), out.
    split; [reflexivity|]. split; [apply batchTimers_ids|].
    split; [now rewrite Hids|]. split.
    + intros c Hc. eapply members_pending; [|exact Hc].
      intros conv Hconv. apply in_map_iff in Hconv.
      destruct Hconv as (file & <- & _). auto.
    + intros c Hc. apply Hun. rewrite <- Hids. now apply in_map.
  - now rewrite Hlen.
  - rewrite Hlen. intros id Hin. now destruct (Hun id Hin).
Qed.

Lemma exec_consistent JSON_parse e w :
  consistent w -> allowed e w -> consistent (exec JSON_parse e w).
Proof.
  intros Hc Ha. destruct e as [uuid now file f|uuid now file f| | |]; simpl.
  - destruct (submit_grows JSON_parse Legacy uuid now file f w Ha) as [E|G];
      unfold postConvert; [now rewrite E|eauto using grown_consistent].
  - destruct (submit_grows JSON_parse Single uuid now file f w Ha) as [E|G];
      unfold postConversions; [now rewrite E|eauto using grown_consistent].
  - destruct (postBatch_grows JSON_parse _ _ _ _ _ _ Ha) as [E|G];
      [now rewrite E|eauto using grown_consistent].
  - now apply fire_consistent.
  - now apply delete_consistent.
Qed.

Lemma exec_status JSON_parse e w id :
  consistent w -> allowed e w ->
  lifecycleStep (statusOf id w) (statusOf id (exec JSON_parse e w)).
Proof.
  intros Hc Ha. destruct e as [uuid now file f|uuid now file f| | |]; simpl.
  - destruct (submit_grows JSON_parse Legacy uuid now file f w Ha) as [E|G];
      unfold postConvert;
      [rewrite E; apply lifecycleStep_same|now apply grown_status].
  - destruct (submit_grows JSON_parse Single uuid now file f w Ha) as [E|G];
      unfold postConversions;
      [rewrite E; apply lifecycleStep_same|now apply grown_status].
  - destruct (postBatch_grows JSON_parse _ _ _ _ _ _ Ha) as [E|G];
      [rewrite E; apply lifecycleStep_same|now apply grown_status].
  - now apply fire_status.
  - apply delete_status.
Qed.

Lemma boot_consistent : consistent boot.
Proof.
  split; [|split]; simpl; try discriminate; try tauto. constructor.
Qed.

Lemma reachable_consistent JSON_parse w :
  reachable JSON_parse w -> consistent w.
Proof.
  induction 1; [apply boot_consistent|eauto using exec_consistent].
Qed.

(** ** What is stored stays stored until it is deleted *)










(** ** Status and download reference in the running process *)

Lemma wellFormed_status id c :
  wellFormed id c ->
  Conversion.status c = "pending" \/ Conversion.status c = "completed" \/
  Conversion.status c = "failed".
Proof. intros (_ & [(H & _)|[(H & _)|(H & _)]]); auto. Qed.

Lemma consistent_not_processing w id :
  consistent w -> statusOf id w <> Some "processing".
Proof.
  intros (I1 & _). unfold statusOf.
  destruct (MockStorage.getConversion id (storage w)) as [c|] eqn:E;
    simpl; [|discriminate].
  destruct (wellFormed_status id c (I1 id c E)) as [H|[H|H]]; rewrite H;
    discriminate.
Qed.

(** C4: in every world the process can reach, a stored job has a download
    reference exactly when its status is [completed]. *)
Theorem download_reference_iff_completed JSON_parse w id c :
  reachable JSON_parse w ->
  MockStorage.getConversion id (storage w) = Some c ->
  (Conversion.downloadUrl c <> None <-> Conversion.status c = "completed").
Proof.
  intros Hr Hc. apply reachable_consistent in Hr. destruct Hr as (I1 & _).
  destruct (I1 id c Hc) as (_ & [(Hs & Hd & _)|[(Hs & Hd & _)|(Hs & Hd & _)]]);
    rewrite Hs, Hd; split; intros H; try congruence; discriminate.
Qed.

(** C1, as the code has it: no stored job ever has status [processing]. From
    one world to the next a job that stays stored keeps its status or goes
    from [pending] to [completed] or to [failed], so a terminal status never
    changes; and a job that becomes stored starts as [pending]. *)
Theorem status_pending_then_terminal JSON_parse w e id :
  reachable JSON_parse w -> allowed e w ->
  lifecycleStep (statusOf id w) (statusOf id (exec JSON_parse e w)) /\
  statusOf id w <> Some "processing" /\
  statusOf id (exec JSON_parse e w) <> Some "processing".
Proof.
  intros Hr Ha. pose proof (reachable_consistent JSON_parse w Hr) as Hc.
  split; [now apply exec_status|]. split.
  - now apply consistent_not_processing.
  - apply consistent_not_processing. now apply exec_consistent.
Qed.

(** C10: when the completing update is rejected, the callback's second
    update replaces the status of the stored record by [failed] and nothing
    else: the ten other keys of the record and the records under other ids
    are as before, so a completion time and a download reference that were
    null stay null. In every world the process can reach, a job with status
    [failed] has neither. *)
Theorem failure_writes_status_only JSON_parse :
  (forall tm now st rest out c,
     MockStorage.getConversion (conversionId tm) st = Some c ->
     let failed :=
       {| Conversion.id := Conversion.id c;
          Conversion.fromFormat := Conversion.fromFormat c;
          Conversion.toFormat := Conversion.toFormat c;
          Conversion.originalFilename := Conversion.originalFilename c;
          Conversion.filePath := Conversion.filePath c;
          Conversion.fileSize := Conversion.fileSize c;
          Conversion.status := "failed";
          Conversion.downloadUrl := Conversion.downloadUrl c;
          Conversion.createdAt := Conversion.createdAt c;
          Conversion.completedAt := Conversion.completedAt c;
          Conversion.metadata := Conversion.metadata c |} in
     exists st',
       fst (task Flaky.updateConversion tm now (st, true :: false :: rest) out)
         = (Resolved tt, (st', rest)) /\
       MockStorage.getConversion (conversionId tm) st' = Some failed /\
       (forall id', conversionId tm <> id' ->
          MockStorage.getConversion id' st' = MockStorage.getConversion id' st)) /\
  (forall w id c,
     reachable JSON_parse w ->
     MockStorage.getConversion id (storage w) = Some c ->
     Conversion.status c = "failed" ->
     Conversion.completedAt c = None /\ Conversion.downloadUrl c = None).
Proof.
  split.
  - intros tm now st rest out c Hc failed.
    exists (JsMap.set (conversionId tm) failed st).
    rewrite task_fails by reflexivity. simpl.
    rewrite (update_present _ _ _ _ Hc). simpl.
    split; [reflexivity|]. unfold MockStorage.getConversion.
    split; [apply get_set_same|]. intros id' Hne. now apply get_set_other.
  - intros w id c Hr Hc Hs. apply reachable_consistent in Hr.
    destruct Hr as (I1 & _).
    destruct (I1 id c Hc) as (_ & [(Hs' & _)|[(Hs' & _)|(_ & Hd & Ht)]]);
      [congruence|congruence|auto].
Qed.

(** ** The scenario, run *)

Example demo_statuses :
  map (statusOf "job-1") (run demoParse boot demoEvents)
  = [None; Some "pending"; Some "pending"; Some "completed"].
Proof. reflexivity. Qed.

Lemma demo_storable : storable demoFields demoFile.
Proof.
  unfold storable, textFits, int32. simpl. repeat split; lia.
Qed.

Lemma demoWorld_reachable : reachable demoParse demoWorld.
Proof.
  unfold demoWorld. apply reach_exec; [apply reach_boot|].
  split; [reflexivity|]. simpl. tauto.
Qed.

Lemma demoRunning_reachable : reachable demoParse demoRunning.
Proof. apply reach_exec; [apply demoWorld_reachable|exact I]. Qed.

Lemma demoEnd_reachable :
  reachable demoParse (exec demoParse (Fire 0 2200 []) demoRunning).
Proof. apply reach_exec; [apply demoRunning_reachable|exact I]. Qed.

(** C1 as stated fails on the scenario: the job is [pending] after the
    upload and while its timer sleeps, and [completed] once the timer has
    fired again, and in no world of the run is it [processing]. *)
Lemma processing_stage_skipped :
  allowed_all demoParse boot demoEvents /\
  ~ processingFirst (run demoParse boot demoEvents) "job-1".
Proof.
  split.
  - simpl. repeat split; simpl; tauto.
  - intros H.
    destruct (H 3%nat (exec demoParse (Fire 0 2200 []) demoRunning) "completed"
                eq_refl eq_refl (or_introl eq_refl))
      as (i & wi & Hlt & Hn & Hs).
    destruct i as [|[|[|i]]]; [| | |lia]; simpl in Hn; injection Hn as <-;
      vm_compute in Hs; discriminate.
Qed.

(** The step of the scenario in which the started timer fires. *)
Lemma status_pending_then_terminal_witness :
  lifecycleStep (statusOf "job-1" demoRunning)
    (statusOf "job-1" (exec demoParse (Fire 0 2200 []) demoRunning)) /\
  statusOf "job-1" demoRunning <> Some "processing" /\
  statusOf "job-1" (exec demoParse (Fire 0 2200 []) demoRunning)
    <> Some "processing".
Proof.
  apply (status_pending_then_terminal demoParse demoRunning (Fire 0 2200 []) "job-1").
  - apply demoRunning_reachable.
  - exact I.
Defined.




(** The completed job at the end of the scenario. *)
Lemma download_reference_iff_completed_witness :
  Conversion.downloadUrl demoDone <> None <->
  Conversion.status demoDone = "completed".
Proof.
  apply (download_reference_iff_completed demoParse
           (exec demoParse (Fire 0 2200 []) demoRunning) "job-1" demoDone).
  - apply demoEnd_reachable.
  - reflexivity.
Defined.

(** The completing update on the job of the scenario. *)
Lemma update_is_partial_merge_witness :
  exists updated,
    MockStorage.getConversion "job-1"
      (snd (MockStorage.updateConversion "job-1" (completedFields "job-1" 2200)
              (storage demoWorld))) = Some updated /\
    Conversion.status updated = "completed" /\
    Conversion.toFormat updated = Conversion.toFormat demoJob.
Proof.
  destruct (update_is_partial_merge "job-1" (completedFields "job-1" 2200)
              (storage demoWorld) demoJob eq_refl)
    as (updated & _ & Hget & _ & _ & Hto & _ & _ & _ & Hs & _).
  exists updated. split; [exact Hget|]. split; [exact Hs|exact Hto].
Defined.





(** The timer of the scenario meeting one rejection. *)
Lemma failure_writes_status_only_witness :
  exists st',
    fst (task Flaky.updateConversion demoTimer 2200
           (storage demoWorld, [true; false]) [])
      = (Resolved tt, (st', [])) /\
    option_map Conversion.status (MockStorage.getConversion "job-1" st')
      = Some "failed" /\
    option_map Conversion.completedAt (MockStorage.getConversion "job-1" st')
      = Some None /\
    option_map Conversion.downloadUrl (MockStorage.getConversion "job-1" st')
      = Some None.
Proof.
  destruct (proj1 (failure_writes_status_only demoParse)
              demoTimer 2200 (storage demoWorld) [] []
              demoJob eq_refl) as (st' & Htask & Hget & _).
  exists st'. split; [exact Htask|]. simpl in Hget. rewrite Hget. auto.
Defined.

(** Downloads before and after the timer of the scenario. *)
Lemma download_outcomes_witness :
  download (fun _ => ".docx") (fun _ _ => "report") (fun _ => true) "job-1"
    demoWorld = Reply 400 (ErrorBody "Conversion not completed") /\
  download (fun _ => ".docx") (fun _ _ => "report") (fun _ => true) "job-1"
    (exec demoParse (Fire 0 2200 []) demoRunning)
    = Download "uploads/3f2a" "report_converted.pdf" /\
  download (fun _ => ".docx") (fun _ _ => "report") (fun _ => false) "job-1"
    (exec demoParse (Fire 0 2200 []) demoRunning)
    = Reply 404 (ErrorBody "File not found").
Proof.
  split; [|split].
  - apply (proj1 (proj2 (download_outcomes (fun _ => ".docx") (fun _ _ => "report")
                           (fun _ => true) "job-1" demoWorld)) demoJob);
      [reflexivity|discriminate].
  - apply (proj1 (proj2 (proj2 (download_outcomes (fun _ => ".docx")
                                  (fun _ _ => "report") (fun _ => true) "job-1"
                                  (exec demoParse (Fire 0 2200 []) demoRunning))))
             demoDone); reflexivity.
  - apply (proj1 (proj2 (proj2 (download_outcomes (fun _ => ".docx")
                                  (fun _ _ => "report") (fun _ => false) "job-1"
                                  (exec demoParse (Fire 0 2200 []) demoRunning))))
             demoDone); reflexivity.
Defined.

(** Deleting an id that is not stored, and the job of the scenario twice. *)
Lemma delete_reports_existence_witness :
  MockStorage.deleteConversion "job-9" (storage demoWorld)
    = (false, storage demoWorld) /\
  fst (MockStorage.deleteConversion "job-1" (storage demoWorld)) = true /\
  fst (MockStorage.deleteConversion "job-1"
         (snd (MockStorage.deleteConversion "job-1" (storage demoWorld)))) = false.
Proof.
  split; [|split].
  - apply (delete_reports_existence "job-9" (storage demoWorld)). reflexivity.
  - apply (delete_reports_existence "job-1" (storage demoWorld)).
    exists demoJob. reflexivity.
  - apply (delete_reports_existence "job-1" (storage demoWorld)).
Defined.

(** * Further properties of the store *)

Lemma set_same {V : Type} k (v : V) m :
  JsMap.get k m = Some v -> JsMap.set k v m = m.
Proof.
  induction m as [|[k' v'] r IH]; simpl; [discriminate|].
  destruct (String.eqb k k') eqn:E.
  - apply String.eqb_eq in E. now intros [= ->]; subst.
  - intros H. now rewrite (IH H).
Qed.

Lemma set_set {V : Type} k (v v' : V) m :
  JsMap.set k v' (JsMap.set k v m) = JsMap.set k v' m.
Proof.
  induction m as [|[k0 v0] r IH]; simpl.
  - now rewrite String.eqb_refl.
  - destruct (String.eqb k k0) eqn:E; simpl.
    + now rewrite String.eqb_refl.
    + now rewrite E, IH.
Qed.

Lemma remove_set_absent {V : Type} k (v : V) m :
  JsMap.get k m = None -> JsMap.remove k (JsMap.set k v m) = m.
Proof.
  intros H. rewrite (set_absent k v m H). unfold JsMap.remove.
  rewrite filter_app. simpl. rewrite String.eqb_refl. simpl.
  rewrite app_nil_r. fold (JsMap.remove k m). now apply remove_absent.
Qed.

Lemma length_set {V : Type} k (v : V) m :
  length (JsMap.set k v m) =
  (length m + (if JsMap.has k m then 0 else 1))%nat.
Proof.
  unfold JsMap.has. induction m as [|[k' v'] r IH]; simpl; auto.
  destruct (String.eqb k k') eqn:E; simpl; [lia|].
  rewrite IH. destruct (JsMap.get k r); lia.
Qed.

(** X1: a created record is the one read back under the id drawn for it,
    the records under other ids are as before, and the map grows by one
    entry, put last, unless the id was already stored, in which case the
    old record is replaced where it stood: the order of the ids is as
    before. *)
Theorem create_then_get uuid now ins st :
  MockStorage.getConversion uuid
    (snd (MockStorage.createConversion uuid now ins st))
    = Some (fst (MockStorage.createConversion uuid now ins st)) /\
  Conversion.id (fst (MockStorage.createConversion uuid now ins st)) = uuid /\
  (forall id, id <> uuid ->
     MockStorage.getConversion id
       (snd (MockStorage.createConversion uuid now ins st))
     = MockStorage.getConversion id st) /\
  length (snd (MockStorage.createConversion uuid now ins st)) =
    (length st + (if JsMap.has uuid st then 0 else 1))%nat /\
  JsMap.keys (snd (MockStorage.createConversion uuid now ins st)) =
    (if JsMap.has uuid st then JsMap.keys st
     else (JsMap.keys st ++ [uuid])%list).
Proof.
  unfold MockStorage.getConversion. simpl. split; [apply get_set_same|].
  split; [reflexivity|]. split; [|split; [apply length_set|]].
  - intros id Hne. apply get_set_other. congruence.
  - unfold JsMap.has. destruct (JsMap.get uuid st) as [c|] eqn:E.
    + apply keys_set_present. congruence.
    + now apply keys_set_absent.
Qed.

(** X2: creating a record under an id that is not stored and deleting that
    id again gives back the store as it was, and the delete answers [true]. *)
Theorem create_then_delete uuid now ins st :
  MockStorage.getConversion uuid st = None ->
  MockStorage.deleteConversion uuid
    (snd (MockStorage.createConversion uuid now ins st)) = (true, st).
Proof.
  intros H. unfold MockStorage.deleteConversion, JsMap.has. simpl.
  rewrite get_set_same. f_equal. now apply remove_set_absent.
Qed.

Lemma merge_none c : merge c Partial.none = c.
Proof. now destruct c. Qed.

Lemma merge_merge c u1 u2 :
  merge (merge c u1) u2 = merge c (laterWins u1 u2).
Proof.
  destruct u1 as [a1 b1 c1 d1 e1 f1 g1 h1 i1 j1 k1],
           u2 as [a2 b2 c2 d2 e2 f2 g2 h2 i2 j2 k2].
  unfold merge, laterWins. simpl.
  destruct a2, b2, c2, d2, e2, f2, g2, h2, i2, j2, k2; reflexivity.
Qed.

Lemma laterWins_same u : laterWins u u = u.
Proof.
  destruct u as [a b c d e f g h i j k]. unfold laterWins. simpl.
  destruct a, b, c, d, e, f, g, h, i, j, k; reflexivity.
Qed.

(** X3: an update without keys returns the stored record and leaves the
    store as it is. *)
Theorem empty_update_changes_nothing id st c :
  MockStorage.getConversion id st = Some c ->
  MockStorage.updateConversion id Partial.none st = (Some c, st).
Proof.
  intros H. rewrite (update_present id Partial.none st c H), merge_none.
  f_equal. now apply set_same.
Qed.

(** X4: two updates of the same id in a row amount to one update in which
    the keys of the later one win, for the record returned and for the
    store; so repeating an update changes nothing more. *)
Theorem updates_compose id u1 u2 st :
  MockStorage.updateConversion id u2
    (snd (MockStorage.updateConversion id u1 st))
  = MockStorage.updateConversion id (laterWins u1 u2) st /\
  MockStorage.updateConversion id u1
    (snd (MockStorage.updateConversion id u1 st))
  = MockStorage.updateConversion id u1 st.
Proof.
  assert (H : forall a b,
             MockStorage.updateConversion id b
               (snd (MockStorage.updateConversion id a st))
             = MockStorage.updateConversion id (laterWins a b) st).
  { intros a b.
    destruct (MockStorage.getConversion id st) as [c|] eqn:E.
    - rewrite (update_present id a st c E). simpl.
      rewrite (update_present id b _ (merge c a)) by apply get_set_same.
      rewrite (update_present id _ st c E), merge_merge. now rewrite set_set.
    - rewrite (update_absent id a st E). simpl.
      now rewrite !update_absent by assumption. }
  split; [apply H|]. rewrite H. now rewrite laterWins_same.
Qed.

(** * Further properties of the event loop *)

Lemma createBatchLoop_other b n uuids nows rest id : forall i results st,
  ~ In id (map uuids (seq i (length rest))) ->
  JsMap.get id (snd (MockStorage.createBatchLoop b n uuids nows i rest results st))
  = JsMap.get id st.
Proof.
  induction rest as [|conv r IH]; simpl; intros i results st Hnot; auto.
  rewrite IH by tauto. apply get_set_other. tauto.
Qed.

Lemma submit_other JSON_parse r uuid now file f w id :
  uuid <> id ->
  JsMap.get id (storage (snd (submit JSON_parse r uuid now file f w)))
  = JsMap.get id (storage w).
Proof.
  intros Hne.
  destruct (missingFormats f) eqn:Ep;
    [now rewrite (submit_invalid JSON_parse r uuid now file f w Ep)|].
  destruct file as [file|]; [|now destruct r].
  submit_cases JSON_parse r uuid now file f w Ep; [|reflexivity]. simpl.
  now apply get_set_other.
Qed.

Lemma postBatch_other JSON_parse batchId uuids nows files f w id :
  ~ In id (drawn uuids (length (match files with Some fs => fs | None => [] end))) ->
  JsMap.get id (storage (snd (postBatch JSON_parse batchId uuids nows files f w)))
  = JsMap.get id (storage w).
Proof.
  intros Hnot. unfold postBatch.
  destruct files as [[|file0 files]|]; auto.
  destruct (missingFormats f); auto.
  destruct (parseSettings JSON_parse (settings f) (console w)) as [ps out].
  destruct (parseEach _) as [validated|issues] eqn:Epe; [|reflexivity].
  apply parseEach_inl in Epe. subst validated.
  unfold MockStorage.createBatchConversion, drawn in *.
  match goal with
  | |- context [MockStorage.createBatchLoop ?b ?n ?u ?t ?i ?l ?r ?s] =>
      pose proof (createBatchLoop_other b n u t l id i r s) as K;
      destruct (MockStorage.createBatchLoop b n u t i l r s)
  end.
  simpl in *. apply K. now rewrite length_map.
Qed.

Lemma firedStore_absent id' now faults st id :
  JsMap.get id st = None -> JsMap.get id (firedStore id' now faults st) = None.
Proof.
  intros H.
  destruct (firedStore_cases id' now faults st) as [->|(c & Hc & [->| ->])];
    auto; (destruct (string_dec id' id) as [->|Hne];
           [unfold MockStorage.getConversion in Hc; congruence
           |now rewrite get_set_other]).
Qed.

Lemma exec_absent JSON_parse e w id :
  ~ creates id e ->
  MockStorage.getConversion id (storage w) = None ->
  MockStorage.getConversion id (storage (exec JSON_parse e w)) = None.
Proof.
  unfold MockStorage.getConversion. intros Hc H.
  destruct e as [uuid now file f|uuid now file f|b uuids nows files f|n now faults|id'];
    simpl in *.
  - unfold postConvert. now rewrite submit_other.
  - unfold postConversions. now rewrite submit_other.
  - now rewrite postBatch_other.
  - destruct (fire_store n now faults w) as [->|(tm & _ & _ & -> & _)]; auto.
    now apply firedStore_absent.
  - destruct (string_dec id' id) as [->|Hne].
    + apply get_remove_same.
    + now rewrite get_remove_other.
Qed.

(** X5: a job that is not stored stays out of the store through any events
    that do not create a record under its id: a timer that fires, with or
    without rejected updates, never brings back a job that was deleted. *)
Theorem absent_until_created JSON_parse es : forall w id,
  MockStorage.getConversion id (storage w) = None ->
  (forall e, In e es -> ~ creates id e) ->
  MockStorage.getConversion id (storage (execAll JSON_parse es w)) = None.
Proof.
  induction es as [|e r IH]; simpl; intros w id H Hall; auto.
  apply IH; [|intros e' He'; apply Hall; auto].
  apply exec_absent; auto.
Qed.

Lemma sameUpload_refl c : sameUpload c c.
Proof. repeat split. Qed.

Lemma sameUpload_merge c u :
  Partial.id u = None -> Partial.fromFormat u = None ->
  Partial.toFormat u = None -> Partial.originalFilename u = None ->
  Partial.filePath u = None -> Partial.fileSize u = None ->
  Partial.createdAt u = None -> Partial.metadata u = None ->
  sameUpload c (merge c u).
Proof.
  intros. unfold sameUpload, merge. simpl.
  repeat match goal with H : _ = None |- _ => rewrite H; clear H end.
  repeat split.
Qed.

Lemma grown_old w w' id c :
  grown w w' ->
  MockStorage.getConversion id (storage w) = Some c ->
  MockStorage.getConversion id (storage w') = Some c.
Proof.
  intros (cs & tms & out & -> & _) H. unfold MockStorage.getConversion in *.
  simpl. now rewrite get_app, H.
Qed.

(** X6: whatever happens in the process, the columns a job got from its
    upload (id, formats, file name, path and size, creation time, metadata)
    are the same for as long as the job is stored; events change its status,
    download reference and completion time only. *)
Theorem upload_columns_frozen JSON_parse e w id c c' :
  allowed e w ->
  MockStorage.getConversion id (storage w) = Some c ->
  MockStorage.getConversion id (storage (exec JSON_parse e w)) = Some c' ->
  sameUpload c c'.
Proof.
  intros Ha Hc Hc'.
  assert (Hg : forall w', (w' = w \/ grown w w') ->
                 MockStorage.getConversion id (storage w') = Some c' ->
                 sameUpload c c').
  { intros w' [->|G] H'.
    - rewrite Hc in H'. injection H' as <-. apply sameUpload_refl.
    - rewrite (grown_old w w' id c G Hc) in H'. injection H' as <-.
      apply sameUpload_refl. }
  destruct e as [uuid now file f|uuid now file f|b uuids nows files f|n now faults|id'];
    simpl in *.
  - apply (Hg _ (submit_grows JSON_parse Legacy uuid now file f w Ha) Hc').
  - apply (Hg _ (submit_grows JSON_parse Single uuid now file f w Ha) Hc').
  - apply (Hg _ (postBatch_grows JSON_parse b uuids nows files f w Ha) Hc').
  - destruct (fire_store n now faults w) as [Hst|(tm & _ & _ & Hst & _)].
    + rewrite Hst, Hc in Hc'. injection Hc' as <-. apply sameUpload_refl.
    + rewrite Hst in Hc'. unfold MockStorage.getConversion in *.
      destruct (firedStore_cases (conversionId tm) now faults (storage w))
        as [E|(c0 & Hc0 & [E|E])]; rewrite E in Hc'.
      * rewrite Hc in Hc'. injection Hc' as <-. apply sameUpload_refl.
      * destruct (string_dec (conversionId tm) id) as [Heq|Hne].
        -- rewrite Heq in *. rewrite get_set_same in Hc'.
           unfold MockStorage.getConversion in Hc0.
           rewrite Hc in Hc0. injection Hc0 as <-. injection Hc' as <-.
           now apply sameUpload_merge.
        -- rewrite get_set_other in Hc' by assumption.
           rewrite Hc in Hc'. injection Hc' as <-. apply sameUpload_refl.
      * destruct (string_dec (conversionId tm) id) as [Heq|Hne].
        -- rewrite Heq in *. rewrite get_set_same in Hc'.
           unfold MockStorage.getConversion in Hc0.
           rewrite Hc in Hc0. injection Hc0 as <-. injection Hc' as <-.
           now apply sameUpload_merge.
        -- rewrite get_set_other in Hc' by assumption.
           rewrite Hc in Hc'. injection Hc' as <-. apply sameUpload_refl.
  - unfold MockStorage.getConversion in *. apply get_remove_some in Hc'.
    rewrite Hc in Hc'. injection Hc' as <-. apply sameUpload_refl.
Qed.

Lemma keys_app {V : Type} (m m' : JsMap.t V) :
  JsMap.keys (m ++ m')%list = (JsMap.keys m ++ JsMap.keys m')%list.
Proof. unfold JsMap.keys. apply map_app. Qed.

Lemma keys_entries (cs : list Conversion.t) :
  JsMap.keys (map entry cs) = map Conversion.id cs.
Proof. unfold JsMap.keys. now rewrite map_map. Qed.

Lemma exec_keys_distinct JSON_parse e w :
  allowed e w ->
  NoDup (JsMap.keys (storage w)) ->
  NoDup (JsMap.keys (storage (exec JSON_parse e w))).
Proof.
  intros Ha Hnd.
  assert (Hg : forall w', (w' = w \/ grown w w') ->
                 NoDup (JsMap.keys (storage w'))).
  { intros w' [->|(cs & tms & out & -> & _ & Hcs & _ & Hun)]; auto.
    simpl. rewrite keys_app, keys_entries. apply NoDup_app; auto.
    intros id Hold Hnew. apply in_map_iff in Hnew.
    destruct Hnew as (c & <- & Hc). destruct (Hun c Hc) as [Hnone _].
    now apply get_absent_keys in Hnone. }
  destruct e as [uuid now file f|uuid now file f|b uuids nows files f|n now faults|id'];
    simpl in *.
  - apply Hg, (submit_grows JSON_parse Legacy uuid now file f w Ha).
  - apply Hg, (submit_grows JSON_parse Single uuid now file f w Ha).
  - apply Hg, (postBatch_grows JSON_parse b uuids nows files f w Ha).
  - destruct (fire_store n now faults w) as [->|(tm & _ & _ & -> & _)]; auto.
    destruct (firedStore_cases (conversionId tm) now faults (storage w))
      as [->|(c0 & Hc0 & [->| ->])]; auto using set_keys_distinct.
  - now apply remove_keys_distinct.
Qed.

Lemma get_some_keys {V : Type} k (m : JsMap.t V) v :
  JsMap.get k m = Some v -> In k (JsMap.keys m).
Proof.
  intros H. destruct (in_dec string_dec k (JsMap.keys m)) as [i|n]; auto.
  apply get_absent_keys in n. congruence.
Qed.

Lemma values_lookup (m : JsMap.t Conversion.t) :
  NoDup (JsMap.keys m) ->
  (forall id c, JsMap.get id m = Some c -> Conversion.id c = id) ->
  forall c, In c (JsMap.values m) -> JsMap.get (Conversion.id c) m = Some c.
Proof.
  induction m as [|[k v] r IH]; simpl; [tauto|].
  intros Hnd Hid c. inversion Hnd as [|? ? Hnotin Hnd']; subst.
  assert (Hr : forall id c0, JsMap.get id r = Some c0 -> Conversion.id c0 = id).
  { intros id c0 H0. apply Hid.
    destruct (String.eqb id k) eqn:E; auto.
    apply String.eqb_eq in E. subst. exfalso. apply Hnotin.
    eapply get_some_keys; eauto. }
  intros [->|Hin].
  - pose proof (Hid k c) as Hk. rewrite String.eqb_refl in Hk.
    rewrite (Hk eq_refl). now rewrite String.eqb_refl.
  - pose proof (IH Hnd' Hr c Hin) as Hget.
    destruct (String.eqb (Conversion.id c) k) eqn:E; auto.
    apply String.eqb_eq in E. exfalso. apply Hnotin.
    rewrite <- E. eapply get_some_keys; eauto.
Qed.

(** X7: in every world the process can reach, the map holds each id once
    and every record is stored under its own [id] column, so looking a job
    up by the id in its record finds that record. *)
Theorem store_keyed_by_id JSON_parse w :
  reachable JSON_parse w ->
  NoDup (JsMap.keys (storage w)) /\
  (forall id c, MockStorage.getConversion id (storage w) = Some c ->
     Conversion.id c = id) /\
  (forall c, In c (JsMap.values (storage w)) ->
     MockStorage.getConversion (Conversion.id c) (storage w) = Some c).
Proof.
  intros Hr.
  assert (Hnd : NoDup (JsMap.keys (storage w))).
  { induction Hr; [constructor|]. now apply exec_keys_distinct. }
  assert (Hid : forall id c, MockStorage.getConversion id (storage w) = Some c ->
                  Conversion.id c = id).
  { intros id c Hc. apply reachable_consistent in Hr.
    destruct Hr as (I1 & _). now destruct (I1 id c Hc). }
  split; [exact Hnd|]. split; [exact Hid|].
  now apply values_lookup.
Qed.

(** X8: in every world the process can reach, no job has two timers pending,
    and a job whose timer is still pending is stored as [pending] with no
    download reference and no completion time, if it is stored at all. So
    no job is completed or failed twice. *)
Theorem one_timer_per_pending_job JSON_parse w :
  reachable JSON_parse w ->
  NoDup (map conversionId (timers w)) /\
  (forall tm c, In tm (timers w) ->
     MockStorage.getConversion (conversionId tm) (storage w) = Some c ->
     Conversion.status c = "pending" /\
     Conversion.downloadUrl c = None /\
     Conversion.completedAt c = None).
Proof.
  intros Hr. apply reachable_consistent in Hr. destruct Hr as (_ & I2 & I3).
  split; [exact I3|]. intros tm c Hin Hc. exact (I2 tm c Hin Hc).
Qed.

(** * Further properties of the routes *)

Lemma getBatch_app b (st : MockStorage.t) (cs : list Conversion.t) :
  MockStorage.getBatchConversions b (st ++ map entry cs)%list =
  (MockStorage.getBatchConversions b st ++ filter (MockStorage.inBatch b) cs)%list.
Proof.
  unfold MockStorage.getBatchConversions, JsMap.values.
  rewrite map_app, filter_app. fold (JsMap.values (map entry cs)).
  now rewrite values_entries.
Qed.

(** X9: the job that [POST /api/conversions] answers a storable upload
    with is the job that [GET /api/conversions/:id] returns for its id
    right after, with status 200; once the job is deleted the same request
    answers 404. *)
Theorem get_route_after_upload JSON_parse uuid now file f w :
  present (fromFormat f) = true -> present (toFormat f) = true ->
  storable f file ->
  exists job w1,
    postConversions JSON_parse uuid now (Some file) f w
      = (Reply 201 (ConversionBody job), w1) /\
    getConversionRoute uuid w1 = Reply 200 (ConversionBody job) /\
    getConversionRoute uuid (snd (deleteJob uuid w1))
      = Reply 404 (ErrorBody "Conversion not found").
Proof.
  intros Hf Ht Hok. unfold postConversions.
  rewrite (submit_valid JSON_parse Single uuid now file f w
             (missingFormats_false f Hf Ht) Hok).
  simpl. eexists. eexists. split; [reflexivity|].
  unfold getConversionRoute, deleteJob, MockStorage.getConversion. simpl.
  now rewrite get_set_same, get_remove_same.
Qed.


Lemma batch_member_columns b n uuids nows i f file ps :
  let job := member b n uuids nows i (conversionData Batch f file ps) in
  Conversion.fromFormat job = value (fromFormat f) /\
  Conversion.toFormat job = value (toFormat f) /\
  Conversion.originalFilename job = originalname file /\
  Conversion.filePath job = path file /\
  Conversion.fileSize job = size file /\
  Conversion.status job = "pending" /\
  prop "isBatch" (Conversion.metadata job) = Some (JBool true).
Proof. repeat split. Qed.

(** X11: [POST /api/conversions/batch] with at least one file, both formats
    and files that are all storable, with member ids that are new and
    distinct, while no stored job has a metadata object whose [batchId] is
    the batch id drawn, answers 201 with that batch id, the number of files
    as [totalFiles] and one job per file in the order of the files. Job [i]
    is pending, has the [i]-th id drawn and the name, path and size of file
    [i], is marked [isBatch], and is what the job route returns for its id;
    the batch route then lists exactly these jobs; and one timer per job is
    added after the timers already pending. *)
Theorem batch_route_creates_batch JSON_parse batchId uuids nows fs f w :
  fs <> [] ->
  missingFormats f = false ->
  (forall file, In file fs -> storable f file) ->
  allowed (PostBatch batchId uuids nows (Some fs) f) w ->
  (forall c props, In c (JsMap.values (storage w)) ->
     Conversion.metadata c = JObj props ->
     JsMap.get "batchId" props <> Some (JStr batchId)) ->
  exists jobs w',
    postBatch JSON_parse batchId uuids nows (Some fs) f w
      = (Reply 201 (BatchBody (Some (JStr batchId)) jobs (length fs)), w') /\
    (forall i file, nth_error fs i = Some file ->
       exists job,
         nth_error jobs i = Some job /\
         Conversion.id job = uuids i /\
         Conversion.originalFilename job = originalname file /\
         Conversion.filePath job = path file /\
         Conversion.fileSize job = size file /\
         Conversion.fromFormat job = value (fromFormat f) /\
         Conversion.toFormat job = value (toFormat f) /\
         Conversion.status job = "pending" /\
         prop "isBatch" (Conversion.metadata job) = Some (JBool true) /\
         getConversionRoute (uuids i) w' = Reply 200 (ConversionBody job)) /\
    getBatchRoute batchId w' = Reply 200 (ConversionsBody jobs) /\
    timers w' = (timers w ++ batchTimers (quality f) 0 jobs)%list.
Proof.
  intros Hne Hm Hok [Hnd Hun] Hold. unfold postBatch.
  destruct fs as [|file0 files]; [congruence|]. clear Hne.
  set (fs := file0 :: files) in *. rewrite Hm.
  destruct (parseSettings JSON_parse (settings f) (console w)) as [ps out].
  rewrite (parseEach_storable f ps fs Hok).
  set (specs := map (fun file => conversionData Batch f file ps) fs).
  assert (Hlen : length specs = length fs) by apply length_map.
  unfold MockStorage.createBatchConversion, drawn in *. simpl length in Hnd, Hun.
  fold fs in Hnd, Hun.
  rewrite createBatchLoop_fresh;
    [|now rewrite Hlen|rewrite Hlen; intros id Hin; now destruct (Hun id Hin)].
  set (ms := members batchId (length specs) uuids nows 0 specs).
  assert (Hids : map Conversion.id ms = map uuids (seq 0 (length fs))).
  { unfold ms. rewrite members_ids. now rewrite Hlen. }
  assert (Hmslen : length ms = length fs).
  { unfold ms. now rewrite members_length. }
  assert (Hnth : forall i file, nth_error fs i = Some file ->
            nth_error ms i
            = Some (member batchId (length specs) uuids nows i
                      (conversionData Batch f file ps))).
  { intros i file Hi. unfold ms.
    rewrite (members_nth batchId (length specs) uuids nows 0 specs i
               (conversionData Batch f file ps)); [reflexivity|].
    unfold specs. now rewrite nth_error_map, Hi. }
  assert (Hinb : forall c, In c ms -> MockStorage.inBatch batchId c = true).
  { intros c Hc. eapply members_inBatch; eauto. }
  assert (Hfirst : match ms with
                   | c :: _ => prop "batchId" (Conversion.metadata c)
                   | [] => None
                   end = Some (JStr batchId)).
  { pose proof (Hnth 0%nat file0 eq_refl) as H0.
    destruct ms as [|m0 ms']; [discriminate|]. injection H0 as ->.
    destruct (member_metadata batchId (length specs) uuids nows 0
                (conversionData Batch f file0 ps)) as (props & Hmd & Hb & _).
    change (prop "batchId"
              (Conversion.metadata
                 (member batchId (length specs) uuids nows 0
                    (conversionData Batch f file0 ps))) = Some (JStr batchId)).
    unfold prop. rewrite Hmd. exact Hb. }
  clearbody ms. cbv beta iota. change ([] ++ ms)%list with ms.
  rewrite Hfirst, Hmslen.
  exists ms. eexists. split; [reflexivity|]. cbn [storage timers].
  split; [|split].
  - intros i file Hi.
    exists (member batchId (length specs) uuids nows i
              (conversionData Batch f file ps)).
    split; [now apply Hnth|].
    destruct (batch_member_columns batchId (length specs) uuids nows i f file ps)
      as (H1 & H2 & H3 & H4 & H5 & H6 & H7).
    repeat (split; [assumption || reflexivity|]).
    unfold getConversionRoute, MockStorage.getConversion. cbn [storage].
    rewrite get_app.
    assert (Hin : In (uuids i) (map uuids (seq 0 (length fs)))).
    { assert (i < length fs)%nat by (apply nth_error_Some; congruence).
      apply in_map, in_seq. lia. }
    destruct (Hun _ Hin) as [Hnone _]. rewrite Hnone.
    change (uuids i) with
      (Conversion.id (member batchId (length specs) uuids nows i
                        (conversionData Batch f file ps))).
    rewrite (get_entries_nth ms i); auto. now rewrite Hids.
  - unfold getBatchRoute. cbn [storage]. rewrite getBatch_app.
    unfold MockStorage.getBatchConversions at 1.
    rewrite filter_none
      by (intros c Hc; apply not_inBatch; intros props; now apply Hold).
    rewrite filter_all; [reflexivity|]. assumption.
  - reflexivity.
Qed.


Lemma baseTime_range q : baseTime q = 1000 \/ baseTime q = 2000 \/ baseTime q = 3000.
Proof.
  destruct q as [s|]; simpl; auto.
  destruct (String.eqb s "high"); auto. destruct (String.eqb s "medium"); auto.
Qed.


Lemma filter_first {A : Type} (p : A -> bool) (l : list A) x r :
  filter p l = x :: r ->
  exists before after,
    l = (before ++ x :: after)%list /\ p x = true /\
    forall y, In y before -> p y = false.
Proof.
  induction l as [|a l IH]; simpl; [discriminate|].
  destruct (p a) eqn:E.
  - intros [= -> <-]. exists [], l. simpl. tauto.
  - intros H. destruct (IH H) as (b & af & -> & Hx & Hb).
    exists (a :: b), af. simpl. split; [reflexivity|]. split; [assumption|].
    intros y [<-|Hy]; auto.
Qed.

(** X13: [GET /api/download/batch/:batchId] answers 404 "Batch not found"
    when no stored job carries the batch id and 400 when jobs do but none is
    completed. Whenever it serves a file, the file is the stored path of a
    completed job of that batch, namely the first completed one in the
    order of the listing, the path can be accessed, and the download is
    named [batch_<batchId>.zip]. *)
Theorem batch_download_outcomes access batchId w :
  (MockStorage.getBatchConversions batchId (storage w) = [] ->
     downloadBatch access batchId w = Reply 404 (ErrorBody "Batch not found")) /\
  (MockStorage.getBatchConversions batchId (storage w) <> [] ->
   (forall c, In c (MockStorage.getBatchConversions batchId (storage w)) ->
      Conversion.status c <> "completed") ->
     downloadBatch access batchId w
       = Reply 400 (ErrorBody "No completed conversions in batch")) /\
  (forall file name,
     downloadBatch access batchId w = Download file name ->
     name = "batch_" ++ batchId ++ ".zip" /\
     access file = true /\
     exists before c after,
       MockStorage.getBatchConversions batchId (storage w)
         = (before ++ c :: after)%list /\
       Conversion.filePath c = file /\
       Conversion.status c = "completed" /\
       MockStorage.inBatch batchId c = true /\
       forall x, In x before -> Conversion.status x <> "completed").
Proof.
  unfold downloadBatch.
  set (l := MockStorage.getBatchConversions batchId (storage w)).
  assert (Hl : forall c, In c l -> MockStorage.inBatch batchId c = true).
  { intros c Hc. unfold l, MockStorage.getBatchConversions in Hc.
    now apply filter_In in Hc. }
  clearbody l. split; [|split].
  - now intros ->.
  - intros Hne Hall. destruct l as [|c0 l']; [congruence|].
    rewrite filter_none; [reflexivity|].
    intros c Hc. apply String.eqb_neq. now apply Hall.
  - intros file name. destruct l as [|c0 l']; [discriminate|].
    destruct (filter _ (c0 :: l')) as [|c r] eqn:E; [discriminate|].
    destruct (access (Conversion.filePath c)) eqn:Ea; [|discriminate].
    intros [= <- <-]. split; [reflexivity|]. split; [assumption|].
    destruct (filter_first _ _ _ _ E) as (before & after & Heq & Hc & Hb).
    exists before, c, after. split; [assumption|]. split; [reflexivity|].
    split; [now apply String.eqb_eq|]. split.
    + apply Hl. rewrite Heq. apply in_or_app. simpl. auto.
    + intros x Hx. apply String.eqb_neq. now apply Hb.
Qed.

(** The schema does not look at the metadata, in which alone the data of
    the two routes differ. *)
Lemma schemaIssues_route r r' f file ps ps' :
  schemaIssues (conversionData r f file ps)
  = schemaIssues (conversionData r' f file ps').
Proof. reflexivity. Qed.

(** X14: for the same storable upload, [POST /api/convert] and
    [POST /api/conversions] store the same job: every column agrees and the
    metadata agree on [quality] and [settings]; the legacy route adds the
    upload's stored name, original name and MIME type to the metadata and
    answers 200 where the new route answers 201. They refuse the same
    uploads: a missing file or format each in its own wording, the legacy
    route under the key [message]; and an upload that is not storable in
    the same answer, "Invalid data" with the same issues under the key
    [error], leaving the same world. *)
Theorem legacy_route_matches_new JSON_parse uuid now f w :
  (forall file, missingFormats f = false -> storable f file ->
     exists old new,
       fst (postConvert JSON_parse uuid now (Some file) f w)
         = Reply 200 (ConversionBody old) /\
       fst (postConversions JSON_parse uuid now (Some file) f w)
         = Reply 201 (ConversionBody new) /\
       MockStorage.getConversion uuid
         (storage (snd (postConvert JSON_parse uuid now (Some file) f w)))
         = Some old /\
       MockStorage.getConversion uuid
         (storage (snd (postConversions JSON_parse uuid now (Some file) f w)))
         = Some new /\
       merge old
         {| Partial.id := None; Partial.fromFormat := None;
            Partial.toFormat := None; Partial.originalFilename := None;
            Partial.filePath := None; Partial.fileSize := None;
            Partial.status := None; Partial.downloadUrl := None;
            Partial.createdAt := None; Partial.completedAt := None;
            Partial.metadata := Some (Conversion.metadata new) |} = new /\
       prop "quality" (Conversion.metadata old)
         = prop "quality" (Conversion.metadata new) /\
       prop "settings" (Conversion.metadata old)
         = prop "settings" (Conversion.metadata new) /\
       prop "uploadedFileName" (Conversion.metadata old)
         = Some (JStr (filename file)) /\
       prop "originalName" (Conversion.metadata old)
         = Some (JStr (originalname file)) /\
       prop "mimetype" (Conversion.metadata old) = Some (JStr (mimetype file)) /\
       prop "uploadedFileName" (Conversion.metadata new) = None /\
       console (snd (postConvert JSON_parse uuid now (Some file) f w))
         = console (snd (postConversions JSON_parse uuid now (Some file) f w))) /\
  (forall file, missingFormats f = true ->
     postConvert JSON_parse uuid now (Some file) f w
       = (Reply 400 (MessageBody "fromFormat and toFormat are required"), w) /\
     postConversions JSON_parse uuid now (Some file) f w
       = (Reply 400 (ErrorBody "Missing format parameters"), w)) /\
  (forall file, missingFormats f = false -> ~ storable f file ->
     exists issue issues,
       postConvert JSON_parse uuid now (Some file) f w
         = (Reply 400 (InvalidBody "Invalid data" (issue :: issues)),
            afterParsing JSON_parse f w) /\
       postConversions JSON_parse uuid now (Some file) f w
         = postConvert JSON_parse uuid now (Some file) f w) /\
  postConvert JSON_parse uuid now None f w
    = (Reply 400 (MessageBody "No file uploaded"), w) /\
  postConversions JSON_parse uuid now None f w
    = (Reply 400 (ErrorBody "No file uploaded"), w).
Proof.
  split; [|split; [|split; [|split]]]; try reflexivity.
  - intros file Hm Hok. unfold postConvert, postConversions.
    rewrite !(submit_valid JSON_parse _ uuid now file f w Hm Hok). simpl.
    eexists. eexists. split; [reflexivity|]. split; [reflexivity|].
    unfold MockStorage.getConversion. rewrite !get_set_same.
    split; [reflexivity|]. split; [reflexivity|]. repeat split.
  - intros file Hm. unfold postConvert, postConversions, submit.
    now rewrite Hm.
  - intros file Hm Hbad. unfold postConvert, postConversions.
    destruct (submit_unstorable JSON_parse Legacy uuid now file f w Hm Hbad)
      as (issue & issues & E).
    exists issue, issues. split; [exact E|].
    unfold submit in *. rewrite Hm in *.
    destruct (parseSettings JSON_parse (settings f) (console w)) as [ps out].
    unfold insertConversionSchema_parse in *.
    rewrite (schemaIssues_route Single Legacy f file ps ps).
    destruct (schemaIssues (conversionData Legacy f file ps));
      [discriminate|reflexivity].
Qed.

(** X15: the timer that a storable upload on a single-file route sets has
    not started, waits 100 ms and then processes for 1000, 2000 or 3000 ms:
    3000 exactly when the request says [quality = "high"] and 2000 exactly
    when it says ["medium"]. A request without quality is recorded with
    quality ["high"] in the metadata of the job, yet is timed with the
    1000 ms of the lowest quality. *)
Theorem quality_recorded_and_timed JSON_parse r uuid now file f w :
  missingFormats f = false ->
  storable f file ->
  exists job tm,
    MockStorage.getConversion uuid
      (storage (snd (submit JSON_parse r uuid now (Some file) f w))) = Some job /\
    timers (snd (submit JSON_parse r uuid now (Some file) f w))
      = (timers w ++ [tm])%list /\
    conversionId tm = uuid /\
    started tm = false /\
    delay tm = 100 /\
    (processingTime tm = 3000 <-> quality f = Some "high") /\
    (processingTime tm = 2000 <-> quality f = Some "medium") /\
    (processingTime tm <> 3000 -> processingTime tm <> 2000 ->
       processingTime tm = 1000) /\
    (present (quality f) = false ->
       prop "quality" (Conversion.metadata job) = Some (JStr "high") /\
       processingTime tm = 1000).
Proof.
  intros Hm Hok.
  rewrite (submit_valid JSON_parse r uuid now file f w Hm Hok). simpl.
  eexists. eexists. unfold MockStorage.getConversion. rewrite get_set_same.
  split; [reflexivity|]. split; [reflexivity|]. simpl.
  split; [reflexivity|]. split; [reflexivity|]. split; [reflexivity|].
  assert (Hhigh : baseTime (quality f) = 3000 <-> quality f = Some "high").
  { unfold baseTime. destruct (quality f) as [q|]; [|split; discriminate].
    destruct (String.eqb q "high") eqn:Eh.
    - apply String.eqb_eq in Eh. subst q. tauto.
    - apply String.eqb_neq in Eh.
      split; [destruct (String.eqb q "medium"); discriminate|congruence]. }
  assert (Hmed : baseTime (quality f) = 2000 <-> quality f = Some "medium").
  { unfold baseTime. destruct (quality f) as [q|]; [|split; discriminate].
    destruct (String.eqb q "high") eqn:Eh.
    - apply String.eqb_eq in Eh. subst q. split; discriminate.
    - destruct (String.eqb q "medium") eqn:Em.
      + apply String.eqb_eq in Em. subst q. tauto.
      + apply String.eqb_neq in Em. split; [discriminate|congruence]. }
  split; [exact Hhigh|]. split; [exact Hmed|]. split.
  - destruct (baseTime_range (quality f)) as [H|[H|H]]; tauto.
  - intros Hq. unfold prop, present, string_or, baseTime in *. simpl.
    destruct (quality f) as [q|]; [|split; reflexivity].
    apply negb_false_iff in Hq. rewrite Hq.
    apply String.eqb_eq in Hq. subst q. split; reflexivity.
Qed.

Lemma listing_after_set {B : Type} (g : Conversion.t -> B)
    (p : Conversion.t -> bool) k (v v' : Conversion.t) (m : MockStorage.t) :
  JsMap.get k m = Some v -> g v' = g v -> p v' = p v ->
  map g (filter p (JsMap.values (JsMap.set k v' m)))
  = map g (filter p (JsMap.values m)).
Proof.
  intros Hget Hg Hp. induction m as [|[k0 v0] r IH]; simpl in *; [discriminate|].
  destruct (String.eqb k k0) eqn:E; simpl.
  - injection Hget as ->. rewrite Hp. destruct (p v); simpl; now rewrite ?Hg.
  - destruct (p v0); simpl; now rewrite IH.
Qed.

Lemma inBatch_merge b c u :
  Partial.metadata u = None ->
  MockStorage.inBatch b (merge c u) = MockStorage.inBatch b c.
Proof. intros H. unfold MockStorage.inBatch, merge. simpl. now rewrite H. Qed.

Lemma id_merge c u : Partial.id u = None -> Conversion.id (merge c u) = Conversion.id c.
Proof. intros H. unfold merge. simpl. now rewrite H. Qed.

(** X16: a timer that fires, whatever it meets, does not change which jobs
    a batch lists nor their order: the ids that [getBatchConversions]
    returns are the same before and after. *)
Theorem firing_keeps_batch_listing n now faults w batchId :
  map Conversion.id
    (MockStorage.getBatchConversions batchId (storage (fire n now faults w)))
  = map Conversion.id (MockStorage.getBatchConversions batchId (storage w)).
Proof.
  destruct (fire_store n now faults w) as [->|(tm & _ & _ & -> & _)]; auto.
  unfold MockStorage.getBatchConversions.
  destruct (firedStore_cases (conversionId tm) now faults (storage w))
    as [->|(c & Hc & [->| ->])]; auto;
    apply listing_after_set with (v := c); auto using inBatch_merge, id_merge.
Qed.

Lemma member_other_batch b b' n uuids nows i conv :
  b <> b' -> MockStorage.inBatch b' (member b n uuids nows i conv) = false.
Proof.
  intros Hne. unfold MockStorage.inBatch, member, prop. simpl.
  rewrite get_set_other by discriminate. rewrite get_set_same.
  now apply String.eqb_neq.
Qed.

Lemma members_other_batch b b' n uuids nows rest : forall i c,
  b <> b' -> In c (members b n uuids nows i rest) ->
  MockStorage.inBatch b' c = false.
Proof.
  induction rest as [|conv r IH]; simpl; intros i c Hne; [tauto|].
  intros [<-|H]; eauto using member_other_batch.
Qed.

(** X17: uploads do not disturb the listings of batches. A single upload
    under an unused id leaves every batch listing as it was: the job it
    stores belongs to no batch. A batch upload under unused ids leaves the
    listing of every other batch id as it was. *)
Theorem uploads_keep_batch_listings JSON_parse w f :
  (forall r uuid now file b,
     unused uuid w ->
     MockStorage.getBatchConversions b
       (storage (snd (submit JSON_parse r uuid now file f w)))
     = MockStorage.getBatchConversions b (storage w)) /\
  (forall batchId uuids nows files b,
     allowed (PostBatch batchId uuids nows files f) w ->
     batchId <> b ->
     MockStorage.getBatchConversions b
       (storage (snd (postBatch JSON_parse batchId uuids nows files f w)))
     = MockStorage.getBatchConversions b (storage w)).
Proof.
  split.
  - intros r uuid now file b [Hnone _].
    destruct (missingFormats f) eqn:Ep;
      [now rewrite (submit_invalid JSON_parse r uuid now file f w Ep)|].
    destruct file as [file|]; [|now destruct r].
    submit_cases JSON_parse r uuid now file f w Ep; [|reflexivity]. simpl.
    rewrite (set_absent _ _ _ Hnone).
    match goal with
    | |- context [(storage w ++ [(uuid, ?c)])%list] =>
        change (storage w ++ [(uuid, c)])%list
          with (storage w ++ map entry [c])%list;
        assert (Hc : MockStorage.inBatch b c = false)
          by (unfold MockStorage.inBatch, prop; now destruct r)
    end.
    rewrite getBatch_app. cbn [filter]. rewrite Hc. apply app_nil_r.
  - intros batchId uuids nows files b [Hnd Hun] Hne. unfold postBatch.
    destruct files as [[|file0 files]|]; auto.
    set (fs := file0 :: files) in *.
    destruct (missingFormats f); auto.
    destruct (parseSettings JSON_parse (settings f) (console w)) as [ps out].
    set (specs := map (fun file => conversionData Batch f file ps) fs).
    assert (Hlen : length specs = length fs) by apply length_map.
    destruct (parseEach specs) as [validated|issues] eqn:Epe; [|reflexivity].
    apply parseEach_inl in Epe. subst validated.
    unfold MockStorage.createBatchConversion, drawn in *.
    rewrite createBatchLoop_fresh;
      [|now rewrite Hlen|rewrite Hlen; intros id Hin; now destruct (Hun id Hin)].
    cbv beta iota. cbn [snd storage]. rewrite getBatch_app.
    rewrite filter_none; [apply app_nil_r|].
    intros c Hc. eapply members_other_batch; eauto.
Qed.

(** * The tool catalogue *)

Lemma get_assign (src : MockAdminStorage.Tool) : forall (o : MockAdminStorage.Tool) k,
  NoDup (JsMap.keys src) ->
  JsMap.get k (MockAdminStorage.assign o src) =
  match JsMap.get k src with
  | Some v => Some v
  | None => JsMap.get k o
  end.
Proof.
  unfold MockAdminStorage.assign.
  induction src as [|[k0 v0] r IH]; simpl; intros o k Hnd; auto.
  inversion Hnd as [|? ? Hnotin Hnd']; subst. rewrite IH by assumption.
  destruct (String.eqb k k0) eqn:E.
  - apply String.eqb_eq in E. subst k0.
    apply get_absent_keys in Hnotin. rewrite Hnotin. apply get_set_same.
  - destruct (JsMap.get k r); auto. apply get_set_other.
    apply String.eqb_neq in E. congruence.
Qed.

(** X18: [addTool] appends the new tool after the tools already there. The
    new tool always has [usageCount] 0 and the current time as [createdAt],
    whatever the caller passed for them; its [id] is the caller's [id] when
    the caller passed one and the generated id otherwise; every other
    property is the caller's. *)
Theorem addTool_sets_server_fields uuid now tool tools :
  NoDup (JsMap.keys tool) ->
  snd (MockAdminStorage.addTool uuid now tool tools)
    = (tools ++ [fst (MockAdminStorage.addTool uuid now tool tools)])%list /\
  JsMap.get "usageCount" (fst (MockAdminStorage.addTool uuid now tool tools))
    = Some (VJson (JNum 0)) /\
  JsMap.get "createdAt" (fst (MockAdminStorage.addTool uuid now tool tools))
    = Some (VDate now) /\
  JsMap.get "id" (fst (MockAdminStorage.addTool uuid now tool tools))
    = Some (match JsMap.get "id" tool with
            | Some v => v
            | None => VJson (JStr uuid)
            end) /\
  (forall k, k <> "id" -> k <> "usageCount" -> k <> "createdAt" ->
     JsMap.get k (fst (MockAdminStorage.addTool uuid now tool tools))
       = JsMap.get k tool).
Proof.
  intros Hnd. unfold MockAdminStorage.addTool. simpl.
  split; [reflexivity|]. split.
  - rewrite get_set_other by discriminate. apply get_set_same.
  - split; [apply get_set_same|]. split.
    + rewrite !get_set_other by discriminate. rewrite get_assign by assumption.
      now destruct (JsMap.get "id" tool).
    + intros k H1 H2 H3. rewrite !get_set_other by congruence.
      rewrite get_assign by assumption.
      destruct (JsMap.get k tool); auto. simpl.
      apply String.eqb_neq in H1. now rewrite H1.
Qed.

Lemma findIndexFrom_spec {A : Type} (p : A -> bool) (l : list A) : forall i,
  0 <= i ->
  (MockAdminStorage.findIndexFrom p i l = -1 /\ forall x, In x l -> p x = false) \/
  exists before x after,
    l = (before ++ x :: after)%list /\ p x = true /\
    (forall y, In y before -> p y = false) /\
    MockAdminStorage.findIndexFrom p i l = i + Z.of_nat (length before).
Proof.
  induction l as [|a r IH]; simpl; intros i Hi.
  - left. tauto.
  - destruct (p a) eqn:E.
    + right. exists [], a, r. simpl. repeat split; auto; try tauto. lia.
    + destruct (IH (i + 1)) as [[H1 H2]|(b & x & af & -> & Hx & Hb & Hidx)];
        [lia| |].
      * left. split; auto. intros y [<-|Hy]; auto.
      * right. exists (a :: b), x, af. simpl.
        repeat split; auto; [|lia]. intros y [<-|Hy]; auto.
Qed.

Lemma drop_nth_middle {A : Type} (before : list A) x after :
  drop_nth (length before) (before ++ x :: after) = (before ++ after)%list.
Proof. induction before as [|a b IH]; simpl; auto. now rewrite IH. Qed.

(** X19: [deleteTool] answers [true] exactly when some tool has the given
    id. It then removes the first such tool and keeps the others in their
    order; when it answers [false] the catalogue is as before. A second tool
    with the same id, if there is one, stays. *)
Theorem deleteTool_removes_first_match id tools :
  (fst (MockAdminStorage.deleteTool id tools) = true <->
     exists tool, In tool tools /\ MockAdminStorage.hasId id tool = true) /\
  (fst (MockAdminStorage.deleteTool id tools) = false ->
     snd (MockAdminStorage.deleteTool id tools) = tools) /\
  (fst (MockAdminStorage.deleteTool id tools) = true ->
     exists before tool after,
       tools = (before ++ tool :: after)%list /\
       MockAdminStorage.hasId id tool = true /\
       (forall x, In x before -> MockAdminStorage.hasId id x = false) /\
       snd (MockAdminStorage.deleteTool id tools) = (before ++ after)%list).
Proof.
  unfold MockAdminStorage.deleteTool.
  destruct (findIndexFrom_spec (MockAdminStorage.hasId id) tools 0)
    as [[H1 H2]|(b & x & af & Heq & Hx & Hb & Hidx)]; [lia| |].
  - rewrite H1. simpl. split; [|split]; try discriminate; auto.
    split; [discriminate|]. intros (tool & Hin & Ht).
    rewrite (H2 tool Hin) in Ht. discriminate.
  - rewrite Hidx. simpl.
    assert (Hpos : (Z.of_nat (length b) >? -1) = true)
      by (apply Z.gtb_lt; lia).
    rewrite Hpos. simpl. rewrite Nat2Z.id.
    split; [|split]; try discriminate.
    + split; auto. intros _. exists x. split; auto.
      rewrite Heq. apply in_or_app. simpl. auto.
    + intros _. exists b, x, af. rewrite Heq at 2.
      rewrite drop_nth_middle. auto.
Qed.

Lemma first_match_is_last {A : Type} (p : A -> bool) (l : list A) a :
  forall b x af,
    (forall y, In y l -> p y = false) -> p x = true ->
    (l ++ [a])%list = (b ++ x :: af)%list ->
    b = l /\ x = a /\ af = [].
Proof.
  induction l as [|t0 r IH]; intros b x af Hnone Hx Heq.
  - destruct b as [|b0 b']; simpl in Heq.
    + injection Heq as <- <-. auto.
    + injection Heq as <- Heq. destruct b'; discriminate.
  - destruct b as [|b0 b']; simpl in Heq; injection Heq as Heq0 Heq.
    + subst x. rewrite (Hnone t0) in Hx by (simpl; auto). discriminate.
    + subst b0.
      destruct (IH b' x af (fun y Hy => Hnone y (or_intror Hy)) Hx Heq)
        as (-> & -> & ->).
      auto.
Qed.

(** X20: adding a tool that brings no [id] of its own, under a generated
    id that no tool of the catalogue has, and then deleting that id gives
    back the catalogue as it was. *)
Theorem addTool_then_deleteTool uuid now tool tools :
  NoDup (JsMap.keys tool) ->
  JsMap.get "id" tool = None ->
  (forall x, In x tools -> MockAdminStorage.hasId uuid x = false) ->
  MockAdminStorage.deleteTool uuid
    (snd (MockAdminStorage.addTool uuid now tool tools)) = (true, tools).
Proof.
  intros Hnd Hid Hnone.
  set (added := fst (MockAdminStorage.addTool uuid now tool tools)).
  assert (Hadded : MockAdminStorage.hasId uuid added = true).
  { unfold MockAdminStorage.hasId, added, MockAdminStorage.addTool. simpl.
    rewrite !get_set_other by discriminate.
    rewrite get_assign by assumption. rewrite Hid. simpl.
    apply String.eqb_refl. }
  change (snd (MockAdminStorage.addTool uuid now tool tools))
    with (tools ++ [added])%list.
  unfold MockAdminStorage.deleteTool.
  destruct (findIndexFrom_spec (MockAdminStorage.hasId uuid) (tools ++ [added]) 0)
    as [[H1 H2]|(b & x & af & Heq & Hx & Hb & Hidx)]; [lia| |].
  - rewrite (H2 added) in Hadded; [discriminate|].
    apply in_or_app. simpl. auto.
  - assert (Hb' : b = tools /\ x = added /\ af = [])
      by (eapply first_match_is_last; eauto).
    destruct Hb' as (-> & -> & ->). rewrite Hidx. simpl.
    assert (Hpos : (Z.of_nat (length tools) >? -1) = true)
      by (apply Z.gtb_lt; lia).
    rewrite Hpos, Nat2Z.id, drop_nth_middle. now rewrite app_nil_r.
Qed.

(** * Folder names of uploaded tools *)

Lemma prefix_dashes c s :
  startsWith "--" (String c s) = true ->
  c = "-"%char /\ exists c' s', s = String c' s' /\ c' = "-"%char.
Proof.
  cbn [startsWith]. destruct (Ascii.eqb "-" c) eqn:E; [|easy].
  apply Ascii.eqb_eq in E. subst c.
  destruct s as [|c' s']; [easy|].
  destruct (Ascii.eqb "-" c') eqn:E'; [|easy].
  apply Ascii.eqb_eq in E'. subst c'. eauto.
Qed.

Lemma includes_cons needle c s :
  includes needle (String c s)
  = if startsWith needle (String c s) then true else includes needle s.
Proof. reflexivity. Qed.

Lemma includes_cons_false needle c s :
  includes needle (String c s) = false ->
  startsWith needle (String c s) = false /\ includes needle s = false.
Proof.
  rewrite includes_cons. destruct (startsWith needle (String c s)); [discriminate|auto].
Qed.

Lemma collapse_no_double s : includes "--" (collapseDashes s) = false.
Proof.
  induction s as [|c rest IH]; [reflexivity|].
  cbn [collapseDashes]. destruct (Ascii.eqb c "-") eqn:Ec.
  - destruct rest as [|c' rest']; [apply Ascii.eqb_eq in Ec; now subst|].
    destruct (Ascii.eqb c' "-") eqn:Ec'; [exact IH|].
    cbn [collapseDashes] in IH |- *. rewrite Ec' in IH |- *.
    rewrite includes_cons, IH.
    destruct (startsWith "--" _) eqn:Ep; auto.
    apply prefix_dashes in Ep. destruct Ep as (_ & c2 & s2 & [= <- _] & ->).
    rewrite Ascii.eqb_refl in Ec'. discriminate.
  - rewrite includes_cons, IH.
    destruct (startsWith "--" _) eqn:Ep; auto.
    apply prefix_dashes in Ep. destruct Ep as (-> & _).
    rewrite Ascii.eqb_refl in Ec. discriminate.
Qed.

Lemma collapse_fixed s : includes "--" s = false -> collapseDashes s = s.
Proof.
  induction s as [|c rest IH]; [reflexivity|].
  intros H. apply includes_cons_false in H. destruct H as [Hp Hi].
  cbn [collapseDashes]. rewrite (IH Hi).
  destruct (Ascii.eqb c "-") eqn:Ec; auto.
  destruct rest as [|c' rest']; auto.
  destruct (Ascii.eqb c' "-") eqn:Ec'; auto.
  apply Ascii.eqb_eq in Ec, Ec'. subst. discriminate.
Qed.

Lemma hasChar_cons c c' s :
  hasChar c (String c' s) = (Ascii.eqb c' c || hasChar c s)%bool.
Proof. reflexivity. Qed.

Lemma collapse_chars c s :
  hasChar c (collapseDashes s) = true -> hasChar c s = true.
Proof.
  induction s as [|c0 rest IH]; [auto|].
  cbn [collapseDashes]. destruct (Ascii.eqb c0 "-") eqn:Ec.
  - destruct rest as [|c' rest']; [auto|].
    destruct (Ascii.eqb c' "-") eqn:Ec'.
    + intros H. rewrite hasChar_cons, (IH H). apply orb_true_r.
    + rewrite !(hasChar_cons c c0). intros H. apply orb_true_iff in H.
      apply orb_true_iff. destruct H as [H|H]; auto.
  - rewrite !(hasChar_cons c c0). intros H. apply orb_true_iff in H.
    apply orb_true_iff. destruct H as [H|H]; auto.
Qed.

Lemma collapse_length s : (String.length (collapseDashes s) <= String.length s)%nat.
Proof.
  induction s as [|c rest IH]; [auto|].
  cbn [collapseDashes]. destruct (Ascii.eqb c "-").
  - destruct rest as [|c' rest']; [auto|].
    destruct (Ascii.eqb c' "-"); cbn [String.length] in *; lia.
  - cbn [String.length]. lia.
Qed.

Lemma replaceUnsafe_length s : String.length (replaceUnsafe s) = String.length s.
Proof. induction s; simpl; auto. Qed.

Lemma replaceUnsafe_chars c s :
  hasChar c (replaceUnsafe s) = true -> isSlugChar c = true \/ c = "-"%char.
Proof.
  induction s as [|c0 rest IH]; cbn [replaceUnsafe]; [discriminate|].
  rewrite hasChar_cons. intros H. apply orb_true_iff in H. destruct H as [H|H]; auto.
  apply Ascii.eqb_eq in H. subst c.
  destruct (isSlugChar c0) eqn:E; auto.
Qed.

Lemma replaceUnsafe_fixed s :
  (forall c, hasChar c s = true -> isSlugChar c = true \/ c = "-"%char) ->
  replaceUnsafe s = s.
Proof.
  induction s as [|c0 rest IH]; cbn [replaceUnsafe]; auto. intros H.
  rewrite IH by (intros c Hc; apply H; rewrite hasChar_cons, Hc; apply orb_true_r).
  destruct (H c0) as [E| ->];
    [rewrite hasChar_cons; now rewrite Ascii.eqb_refl|now rewrite E|reflexivity].
Qed.

(** X21: the folder name derived from a tool's name contains only the
    characters [a-z], [0-9] and [-], never two dashes in a row, and is no
    longer than the lower-cased name. A folder name given in the request is
    taken as it is, without any of this. *)
Theorem folder_name_from_name_is_safe toLowerCase folderName name :
  (present folderName = true ->
     finalFolderName toLowerCase folderName name = value folderName) /\
  (present folderName = false ->
     (forall c, hasChar c (finalFolderName toLowerCase folderName name) = true ->
        isSlugChar c = true \/ c = "-"%char) /\
     includes "--" (finalFolderName toLowerCase folderName name) = false /\
     (String.length (finalFolderName toLowerCase folderName name)
        <= String.length (toLowerCase name))%nat).
Proof.
  unfold finalFolderName. split; intros ->; [reflexivity|].
  split; [|split].
  - intros c Hc. apply collapse_chars in Hc. eapply replaceUnsafe_chars; eauto.
  - apply collapse_no_double.
  - rewrite <- (replaceUnsafe_length (toLowerCase name)). apply collapse_length.
Qed.

(** X22: cleaning a name that is already clean changes nothing: the two
    replacements applied to their own result give that result back. *)
Theorem folder_name_cleaning_idempotent s :
  collapseDashes (replaceUnsafe (collapseDashes (replaceUnsafe s)))
  = collapseDashes (replaceUnsafe s).
Proof.
  rewrite (replaceUnsafe_fixed (collapseDashes (replaceUnsafe s))).
  - apply collapse_fixed, collapse_no_double.
  - intros c Hc. apply collapse_chars in Hc. eapply replaceUnsafe_chars; eauto.
Qed.

(** * Visitor tracking *)

(** X23: [trackUser] always hands back the token it used as the cookie and
    leaves the users under other tokens alone. A token seen for the first
    time adds exactly one user: a visitor with the generated id, active,
    with the request's address and user agent. A token seen before adds
    nobody and writes nothing to the console: the user keeps id, first
    visit, type, address and user agent, and only the time of last activity
    moves to the present. *)
Theorem track_registers_once tokenUuid idUuid first now req users out :
  fst (fst (trackUser tokenUuid idUuid first now req users out))
    = visitToken req tokenUuid /\
  (forall t, t <> visitToken req tokenUuid ->
     JsMap.get t (snd (fst (trackUser tokenUuid idUuid first now req users out)))
     = JsMap.get t users) /\
  (JsMap.get (visitToken req tokenUuid) users = None ->
     exists u,
       JsMap.get (visitToken req tokenUuid)
         (snd (fst (trackUser tokenUuid idUuid first now req users out)))
         = Some u /\
       User.id u = idUuid /\
       User.authToken u = visitToken req tokenUuid /\
       User.userType u = "visitor" /\
       User.isActive u = true /\
       User.firstVisit u = first /\
       User.lastActiveAt u = now /\
       User.ipAddress u = address req /\
       User.userAgent u = agent req /\
       length (snd (fst (trackUser tokenUuid idUuid first now req users out)))
         = S (length users)) /\
  (forall u, JsMap.get (visitToken req tokenUuid) users = Some u ->
     exists u',
       JsMap.get (visitToken req tokenUuid)
         (snd (fst (trackUser tokenUuid idUuid first now req users out)))
         = Some u' /\
       User.id u' = User.id u /\
       User.authToken u' = User.authToken u /\
       User.userType u' = User.userType u /\
       User.firstVisit u' = User.firstVisit u /\
       User.ipAddress u' = User.ipAddress u /\
       User.userAgent u' = User.userAgent u /\
       User.lastActiveAt u' = now /\
       User.isActive u' = true /\
       length (snd (fst (trackUser tokenUuid idUuid first now req users out)))
         = length users /\
       snd (trackUser tokenUuid idUuid first now req users out) = out).
Proof.
  unfold trackUser. set (token := visitToken req tokenUuid).
  destruct (JsMap.get token users) as [u0|] eqn:E; cbn [fst snd].
  - split; [reflexivity|]. split; [intros t Ht; now apply get_set_other|].
    split; [discriminate|]. intros u [= <-].
    eexists. split; [apply get_set_same|]. cbn.
    repeat (split; [reflexivity|]). split; [|reflexivity].
    rewrite length_set. unfold JsMap.has. rewrite E. lia.
  - split; [reflexivity|]. split; [intros t Ht; now apply get_set_other|].
    split; [|discriminate]. intros _.
    eexists. split; [apply get_set_same|]. cbn.
    repeat (split; [reflexivity|]).
    rewrite length_set. unfold JsMap.has. rewrite E. lia.
Qed.

Lemma visitToken_cookie cookie fresh agent0 address0 :
  cookie <> "" ->
  visitToken {| headerToken := None; cookieToken := Some cookie;
                agent := agent0; address := address0 |} fresh = cookie.
Proof.
  intros H. unfold visitToken. cbn. apply String.eqb_neq in H. now rewrite H.
Qed.

(** X24: a visitor who comes without a token and then returns with the
    cookie the first answer set is recognised: after the two visits there is
    one more user than before, with the id generated at the first visit,
    the first visit's time as [firstVisit] and the second visit's time as
    [lastActiveAt]; the second answer sets the same cookie again. *)
Theorem returning_visitor_recognised tokenUuid idUuid idUuid' tokenUuid'
    first now first' now' agent0 address0 agent1 address1 users out :
  tokenUuid <> "" ->
  JsMap.get tokenUuid users = None ->
  let visit1 :=
    trackUser tokenUuid idUuid first now
      {| headerToken := None; cookieToken := None;
         agent := agent0; address := address0 |} users out in
  let visit2 :=
    trackUser tokenUuid' idUuid' first' now'
      {| headerToken := None; cookieToken := Some (fst (fst visit1));
         agent := agent1; address := address1 |}
      (snd (fst visit1)) (snd visit1) in
  fst (fst visit2) = tokenUuid /\
  length (snd (fst visit2)) = S (length users) /\
  exists u,
    JsMap.get tokenUuid (snd (fst visit2)) = Some u /\
    User.id u = idUuid /\
    User.firstVisit u = first /\
    User.lastActiveAt u = now' /\
    User.userAgent u = agent0.
Proof.
  intros Hne Hnew visit1 visit2.
  assert (H1 : visit1 = (tokenUuid,
                         JsMap.set tokenUuid
                           {| User.id := idUuid; User.authToken := tokenUuid;
                              User.userType := "visitor"; User.isActive := true;
                              User.firstVisit := first; User.lastActiveAt := now;
                              User.ipAddress := address0; User.userAgent := agent0;
                              User.metadata := JObj [("source", JStr "website")] |}
                           users,
                         snd visit1)).
  { unfold visit1, trackUser, visitToken. cbn. now rewrite Hnew. }
  unfold visit2. rewrite H1. cbn [fst snd].
  unfold trackUser. rewrite (visitToken_cookie _ _ _ _ Hne), get_set_same.
  cbn [fst snd]. split; [reflexivity|]. split.
  - rewrite !length_set. unfold JsMap.has. rewrite get_set_same, Hnew. lia.
  - eexists. split; [apply get_set_same|]. cbn. auto.
Qed.

Lemma find_app_none {A : Type} (p : A -> bool) (l l' : list A) :
  find p l = None -> find p (l ++ l') = find p l'.
Proof.
  induction l as [|a r IH]; simpl; auto. destruct (p a); [discriminate|auto].
Qed.

(** X25: tracking a new visitor and then deleting the user by the id it was
    given gives back the users as they were, provided no user already had
    that id. *)
Theorem track_then_delete_user tokenUuid idUuid first now req users out :
  JsMap.get (visitToken req tokenUuid) users = None ->
  (forall t u, In (t, u) users -> User.id u <> idUuid) ->
  deleteUserById idUuid
    (snd (fst (trackUser tokenUuid idUuid first now req users out))) = users.
Proof.
  intros Hnew Hids. unfold trackUser. rewrite Hnew. cbn [fst snd].
  rewrite (set_absent _ _ _ Hnew). unfold deleteUserById.
  rewrite find_app_none.
  - cbn. rewrite String.eqb_refl. cbn.
    rewrite <- (set_absent _ _ _ Hnew). now apply remove_set_absent.
  - destruct (find _ users) as [[t u]|] eqn:E; [|reflexivity].
    apply find_some in E. destruct E as [Hin He]. cbn in He.
    apply String.eqb_eq in He. now destruct (Hids t u Hin).
Qed.

(** * Splitting and searching strings *)

Lemma splitOn_single sep s : hasChar sep s = false -> splitOn sep s = [s].
Proof.
  induction s as [|c r IH]; [reflexivity|].
  rewrite hasChar_cons. intros H. apply orb_false_iff in H. destruct H as [Hc Hr].
  cbn [splitOn]. rewrite Hc. now rewrite (IH Hr).
Qed.

Lemma splitOn_app sep s rest :
  hasChar sep s = false ->
  splitOn sep (s ++ String sep rest) = s :: splitOn sep rest.
Proof.
  induction s as [|c r IH]; intros H.
  - cbn [append splitOn]. now rewrite Ascii.eqb_refl.
  - rewrite hasChar_cons in H. apply orb_false_iff in H. destruct H as [Hc Hr].
    cbn [append splitOn]. rewrite Hc. now rewrite (IH Hr).
Qed.

Lemma split_join sep l :
  l <> [] -> (forall s, In s l -> hasChar sep s = false) ->
  splitOn sep (joinWith sep l) = l.
Proof.
  unfold joinWith. induction l as [|s r IH]; [congruence|].
  intros _ Hall. destruct r as [|s' r'].
  - cbn [String.concat]. apply splitOn_single. apply Hall. simpl. auto.
  - change (String.concat (String sep "") (s :: s' :: r'))
      with (s ++ String sep (String.concat (String sep "") (s' :: r'))).
    rewrite splitOn_app by (apply Hall; simpl; auto).
    f_equal. apply IH; [discriminate|]. intros x Hx. apply Hall. simpl. auto.
Qed.

Lemma existsb_eqb v l : existsb (String.eqb v) l = true <-> In v l.
Proof.
  rewrite existsb_exists. split.
  - intros (x & Hx & He). apply String.eqb_eq in He. now subst.
  - intros H. exists v. split; auto. apply String.eqb_refl.
Qed.

Lemma startsWith_app p s : startsWith p (p ++ s) = true.
Proof.
  induction p as [|c r IH]; [reflexivity|].
  cbn [append startsWith]. now rewrite Ascii.eqb_refl, IH.
Qed.

Lemma includes_app needle before after :
  includes needle (before ++ needle ++ after) = true.
Proof.
  induction before as [|c r IH].
  - cbn [append]. destruct (needle ++ after) eqn:E.
    + destruct needle; [reflexivity|discriminate].
    + rewrite includes_cons, <- E. now rewrite startsWith_app.
  - cbn [append]. rewrite includes_cons, IH. now destruct (startsWith _ _).
Qed.

(** * Cross-origin requests *)

(** X26: a request without an [Origin] always passes the origin check. When
    [ALLOWED_ORIGINS] is the comma-joined list of some origins, none of
    which contains a comma, a request with an origin passes exactly when
    its origin is one of them; with the variable unset it passes exactly for
    the four built-in origins; and with the variable set to the empty string
    no request that names an origin passes. *)
Theorem origin_check_follows_configuration origin out :
  (forall env, present origin = false ->
     checkOrigin env origin out = (Resolved tt, out)) /\
  (forall origins,
     origins <> [] ->
     (forall o, In o origins -> hasChar "," o = false) ->
     present origin = true ->
     (fst (checkOrigin (Some (joinWith "," origins)) origin out) = Resolved tt
      <-> In (value origin) origins)) /\
  (present origin = true ->
     (fst (checkOrigin None origin out) = Resolved tt
      <-> In (value origin) defaultOrigins)) /\
  (present origin = true ->
     checkOrigin (Some "") origin out
     = (Rejected "Not allowed by CORS",
        say Log ("Blocked origin: " ++ value origin) out)).
Proof.
  unfold checkOrigin. split; [|split; [|split]].
  - now intros env ->.
  - intros origins Hne Hall ->. cbn [negb allowedOrigins].
    rewrite split_join by assumption.
    destruct (existsb _ origins) eqn:E; cbn [fst].
    + apply existsb_eqb in E. tauto.
    + split; [discriminate|]. intros H. apply existsb_eqb in H. congruence.
  - intros ->. cbn [negb allowedOrigins].
    destruct (existsb _ defaultOrigins) eqn:E; cbn [fst].
    + apply existsb_eqb in E. tauto.
    + split; [discriminate|]. intros H. apply existsb_eqb in H. congruence.
  - intros Hp. rewrite Hp. cbn [negb allowedOrigins splitOn existsb].
    unfold present in Hp. destruct origin as [o|]; [|discriminate].
    cbn [value]. apply negb_true_iff in Hp. now rewrite Hp.
Qed.

(** * Admin access *)

Lemma referer_or_empty referer :
  (if present referer then value referer else "") = value referer.
Proof.
  destruct referer as [r|]; cbn; [|reflexivity].
  destruct (String.eqb r "") eqn:E; cbn; [|reflexivity].
  apply String.eqb_eq in E. now subst.
Qed.

(** X27: a request whose [Referer] contains [/pd-od?accesskey=] anywhere is
    let through to the admin routes without a session, whatever follows the
    [=]: the access key itself is not looked at. A request with an admin
    session is let through as well. Without a session, without that text in
    the [Referer] and outside development mode the answer is 401. *)
Theorem admin_referer_grants_access nodeEnv :
  (forall before after,
     requireAdmin false (Some (before ++ "/pd-od?accesskey=" ++ after)) nodeEnv
     = None) /\
  (forall referer, requireAdmin true referer nodeEnv = None) /\
  (forall referer,
     includes "/pd-od?accesskey=" (value referer) = false ->
     nodeEnv <> Some "development" ->
     requireAdmin false referer nodeEnv
     = Some (Reply 401 (ErrorBody "Unauthorized - Admin session required"))).
Proof.
  unfold requireAdmin. split; [|split]; [| reflexivity |].
  - intros before after. rewrite referer_or_empty. cbn [value].
    now rewrite includes_app.
  - intros referer Hinc Henv. rewrite referer_or_empty, Hinc. cbn [orb].
    destruct nodeEnv as [e|]; [|reflexivity].
    destruct (String.eqb e "development") eqn:E; [|reflexivity].
    apply String.eqb_eq in E. congruence.
Qed.

(** * API keys *)

Lemma bearerKey_plain key :
  hasChar " " key = false -> bearerKey ("Bearer " ++ key) = Some key.
Proof.
  intros H. unfold bearerKey.
  change ("Bearer " ++ key) with ("Bearer" ++ String " " key).
  rewrite splitOn_app by reflexivity. cbn [nth_error].
  now rewrite (splitOn_single " " key H).
Qed.

Lemma bearerKey_tail key tail :
  hasChar " " key = false ->
  bearerKey ("Bearer " ++ key ++ String " " tail) = Some key.
Proof.
  intros H. unfold bearerKey.
  change ("Bearer " ++ key ++ String " " tail)
    with ("Bearer" ++ String " " (key ++ String " " tail)).
  rewrite splitOn_app by reflexivity. cbn [nth_error].
  now rewrite (splitOn_app " " key tail H).
Qed.

(** X28: [validateApiKey] lets a request through only with a header that
    starts with [Bearer ], whose second space-separated piece starts with
    [ak_], when the key query for the hash of that piece returns a row that
    is active, not past its expiry and whose request count is below the
    plan's limit. For such a request [POST /convert] writes a count that is
    one more and still within the limit, and reports a number of remaining
    requests that is not negative and one less than [GET /key-info]
    reports. *)
Theorem api_gate_admits_within_quota sha256 query authorization now apiKey :
  validateApiKey sha256 query authorization now = Next apiKey ->
  exists header key row rows,
    authorization = Some header /\
    startsWith "Bearer " header = true /\
    bearerKey header = Some key /\
    startsWith "ak_" key = true /\
    query (sha256 key) = row :: rows /\
    keyIsActive row = Some true /\
    (forall expiry, expiryDate row = Some expiry -> now <= expiry) /\
    num (requestCount row) < num (planRequestLimit row) /\
    apiKeyId apiKey = keyId row /\
    apiRequestCount apiKey = requestCount row /\
    apiRequestLimit apiKey = planRequestLimit row /\
    convertCount apiKey = num (requestCount row) + 1 /\
    convertCount apiKey <= num (planRequestLimit row) /\
    0 <= convertRemaining apiKey /\
    convertRemaining apiKey = keyInfoRemaining apiKey - 1.
Proof.
  unfold validateApiKey.
  destruct authorization as [header|]; [|discriminate].
  cbn [present value].
  destruct (String.eqb header "") eqn:Eh; [discriminate|]. cbn [negb orb].
  destruct (startsWith "Bearer " header) eqn:Eb; [|discriminate]. cbn [negb].
  destruct (bearerKey header) as [key|] eqn:Ek; [|discriminate].
  cbn [present value].
  destruct (String.eqb key "") eqn:Ee; [discriminate|]. cbn [negb orb].
  destruct (startsWith "ak_" key) eqn:Ea; [|discriminate]. cbn [negb].
  destruct (query (sha256 key)) as [|row rows] eqn:Eq; [discriminate|].
  destruct (keyIsActive row) as [[|]|] eqn:Eact; try discriminate. cbn [negb].
  destruct (match expiryDate row with
            | Some expiry => now >? expiry
            | None => false
            end) eqn:Eexp; [discriminate|].
  destruct (num (requestCount row) >=? num (planRequestLimit row)) eqn:Elim;
    [discriminate|].
  intros [= <-]. exists header, key, row, rows.
  assert (Hlt : num (requestCount row) < num (planRequestLimit row)).
  { rewrite Z.geb_leb in Elim. apply Z.leb_gt in Elim. exact Elim. }
  unfold convertCount, convertRemaining, keyInfoRemaining.
  cbn [apiKeyId apiRequestCount apiRequestLimit].
  repeat (split; [first [assumption | reflexivity]|]).
  split.
  - intros expiry He. rewrite He in Eexp. rewrite Z.gtb_ltb in Eexp.
    apply Z.ltb_ge in Eexp. exact Eexp.
  - repeat split; try reflexivity; lia.
Qed.

Lemma startsWith_nonempty p c s : startsWith (String c p) s = true -> s <> "".
Proof. destruct s; [discriminate|discriminate]. Qed.

Lemma validate_bearer sha256 query key now :
  hasChar " " key = false -> startsWith "ak_" key = true ->
  validateApiKey sha256 query (Some ("Bearer " ++ key)) now =
  match query (sha256 key) with
  | [] => Refuse 401 "Invalid API key"
  | keyData :: _ =>
      if negb (match keyIsActive keyData with Some b => b | None => false end)
      then Refuse 401 "API key is inactive"
      else if match expiryDate keyData with
              | Some expiry => now >? expiry
              | None => false
              end
      then Refuse 401 "API key has expired"
      else if num (requestCount keyData) >=? num (planRequestLimit keyData)
      then LimitExceeded (planRequestLimit keyData) (requestCount keyData)
      else
        Next {| apiKeyId := keyId keyData;
                apiUserToken := keyUserToken keyData;
                apiPlanId := keyPlanId keyData;
                apiPlanName := planName keyData;
                apiRequestCount := requestCount keyData;
                apiRequestLimit := planRequestLimit keyData |}
  end.
Proof.
  intros Hsp Hak. unfold validateApiKey.
  cbn [present value]. rewrite (bearerKey_plain key Hsp).
  change (String.eqb ("Bearer " ++ key) "") with false.
  rewrite (startsWith_app "Bearer " key). cbn [negb orb present value].
  pose proof (startsWith_nonempty _ _ _ Hak) as Hne.
  apply String.eqb_neq in Hne. rewrite Hne, Hak. reflexivity.
Qed.

(** X29: a key that has used up its plan is answered 429 with the limit and
    the count, not let through: this is so whenever the key is found,
    active and not expired and its count has reached the limit. A key whose
    plan row is missing counts as having limit 0, so with a request count
    that is not negative it is answered 429 as well. A key whose count is
    below the limit is let through. *)
Theorem exhausted_key_is_rate_limited sha256 query key row rows now :
  hasChar " " key = false ->
  startsWith "ak_" key = true ->
  query (sha256 key) = row :: rows ->
  keyIsActive row = Some true ->
  (forall expiry, expiryDate row = Some expiry -> now <= expiry) ->
  (num (planRequestLimit row) <= num (requestCount row) ->
     validateApiKey sha256 query (Some ("Bearer " ++ key)) now
     = LimitExceeded (planRequestLimit row) (requestCount row)) /\
  (planRequestLimit row = None -> 0 <= num (requestCount row) ->
     validateApiKey sha256 query (Some ("Bearer " ++ key)) now
     = LimitExceeded None (requestCount row)) /\
  (num (requestCount row) < num (planRequestLimit row) ->
     exists apiKey,
       validateApiKey sha256 query (Some ("Bearer " ++ key)) now = Next apiKey /\
       convertCount apiKey = num (requestCount row) + 1).
Proof.
  intros Hsp Hak Hq Hact Hexp.
  rewrite (validate_bearer sha256 query key now Hsp Hak), Hq, Hact.
  cbn [negb].
  assert (He : match expiryDate row with
               | Some expiry => now >? expiry
               | None => false
               end = false).
  { destruct (expiryDate row) as [e|]; [|reflexivity].
    rewrite Z.gtb_ltb. apply Z.ltb_ge. now apply Hexp. }
  rewrite He.
  split; [|split].
  - intros Hle. assert (E : (num (requestCount row) >=? num (planRequestLimit row)) = true)
      by (rewrite Z.geb_leb; now apply Z.leb_le).
    now rewrite E.
  - intros Hnone Hpos. rewrite Hnone in *. cbn [num] in *.
    assert (E : (num (requestCount row) >=? 0) = true)
      by (rewrite Z.geb_leb; now apply Z.leb_le).
    now rewrite E.
  - intros Hlt. assert (E : (num (requestCount row) >=? num (planRequestLimit row)) = false)
      by (rewrite Z.geb_leb; now apply Z.leb_gt).
    rewrite E. eexists. split; reflexivity.
Qed.

(** X30: only the second space-separated piece of the header counts as the
    key. Whatever follows a further space is ignored, so the header answers
    as the header without it; a second space right after [Bearer ] makes the
    key empty and the request is refused as badly formatted; and a request
    without the header is refused. *)
Theorem bearer_header_parsing sha256 query key tail now :
  hasChar " " key = false ->
  validateApiKey sha256 query (Some ("Bearer " ++ key ++ " " ++ tail)) now
    = validateApiKey sha256 query (Some ("Bearer " ++ key)) now /\
  validateApiKey sha256 query (Some ("Bearer  " ++ key)) now
    = Refuse 401 "Invalid API key format" /\
  validateApiKey sha256 query None now
    = Refuse 401 "Missing or invalid authorization header".
Proof.
  intros Hsp. split; [|split]; [| |reflexivity].
  - unfold validateApiKey. cbn [present value].
    change ("Bearer " ++ key ++ " " ++ tail)
      with ("Bearer " ++ key ++ String " " tail).
    rewrite (bearerKey_tail key tail Hsp), (bearerKey_plain key Hsp).
    change (String.eqb ("Bearer " ++ key ++ String " " tail) "") with false.
    change (String.eqb ("Bearer " ++ key) "") with false.
    rewrite (startsWith_app "Bearer " key).
    now rewrite (startsWith_app "Bearer " (key ++ String " " tail)).
  - unfold validateApiKey. cbn [present value].
    change (String.eqb ("Bearer  " ++ key) "") with false.
    change ("Bearer  " ++ key) with ("Bearer " ++ String " " key).
    rewrite (startsWith_app "Bearer " (String " " key)).
    cbn [negb orb].
    assert (Hk : bearerKey ("Bearer " ++ String " " key) = Some "").
    { unfold bearerKey.
      change ("Bearer " ++ String " " key)
        with ("Bearer" ++ String " " ("" ++ String " " key)).
      rewrite splitOn_app by reflexivity. cbn [nth_error].
      now rewrite (splitOn_app " " "" key). }
    rewrite Hk. reflexivity.
Qed.

(** * The further properties on the scenario *)

(** Creating [job-1] on an empty store and deleting it. *)
Lemma create_then_delete_witness :
  MockStorage.deleteConversion "job-1"
    (snd (MockStorage.createConversion "job-1" 1000
            (conversionData Single demoFields demoFile (JObj []))
            MockStorage.empty))
  = (true, MockStorage.empty).
Proof.
  apply (create_then_delete "job-1" 1000
           (conversionData Single demoFields demoFile (JObj []))
           MockStorage.empty).
  reflexivity.
Defined.

(** An update without keys on the job of the scenario. *)
Lemma empty_update_changes_nothing_witness :
  MockStorage.updateConversion "job-1" Partial.none (storage demoWorld)
  = (Some demoJob, storage demoWorld).
Proof.
  apply (empty_update_changes_nothing "job-1" (storage demoWorld) demoJob).
  reflexivity.
Defined.

(** The job of the scenario deleted before its timer starts and fires. *)
Lemma absent_until_created_witness :
  MockStorage.getConversion "job-1"
    (storage (execAll demoParse [Fire 0 1100 []; Fire 0 2200 []]
                (snd (deleteJob "job-1" demoWorld)))) = None.
Proof.
  apply (absent_until_created demoParse [Fire 0 1100 []; Fire 0 2200 []]
           (snd (deleteJob "job-1" demoWorld)) "job-1").
  - reflexivity.
  - intros e [<-|[<-|[]]]; simpl; tauto.
Defined.

(** The job of the scenario before and after its timer. *)
Lemma upload_columns_frozen_witness : sameUpload demoJob demoDone.
Proof.
  apply (upload_columns_frozen demoParse (Fire 0 2200 []) demoRunning "job-1"
           demoJob demoDone).
  - exact I.
  - reflexivity.
  - reflexivity.
Defined.

(** The world after the upload of the scenario. *)
Lemma store_keyed_by_id_witness :
  NoDup (JsMap.keys (storage demoWorld)) /\
  (forall id c, MockStorage.getConversion id (storage demoWorld) = Some c ->
     Conversion.id c = id) /\
  (forall c, In c (JsMap.values (storage demoWorld)) ->
     MockStorage.getConversion (Conversion.id c) (storage demoWorld) = Some c).
Proof. exact (store_keyed_by_id demoParse demoWorld demoWorld_reachable). Defined.

Lemma one_timer_per_pending_job_witness :
  NoDup (map conversionId (timers demoWorld)).
Proof.
  apply (one_timer_per_pending_job demoParse demoWorld demoWorld_reachable).
Defined.

(** The upload of the scenario, read back and deleted. *)
Lemma get_route_after_upload_witness :
  exists job w1,
    postConversions demoParse "job-1" 1000 (Some demoFile) demoFields boot
      = (Reply 201 (ConversionBody job), w1) /\
    getConversionRoute "job-1" w1 = Reply 200 (ConversionBody job) /\
    getConversionRoute "job-1" (snd (deleteJob "job-1" w1))
      = Reply 404 (ErrorBody "Conversion not found").
Proof.
  exact (get_route_after_upload demoParse "job-1" 1000 demoFile demoFields boot
           eq_refl eq_refl demo_storable).
Defined.

Lemma demoBatch_allowed : allowed demoBatch demoBusy.
Proof.
  split.
  - constructor; [simpl; intros [H|[]]; discriminate|].
    constructor; [simpl; tauto|constructor].
  - intros id [<-|[<-|[]]]; (split; [reflexivity|]); simpl; tauto.
Qed.

Lemma demo_storable2 : storable demoFields demoFile2.
Proof.
  unfold storable, textFits, int32. simpl. repeat split; lia.
Qed.

(** The batch of two files on a process that holds a member of an earlier
    batch and a job of no batch. *)
Lemma batch_route_creates_batch_witness :
  exists jobs w',
    postBatch demoParse "batch-1" demoUuids (fun _ => 1000)
      (Some [demoFile; demoFile2]) demoFields demoBusy
      = (Reply 201 (BatchBody (Some (JStr "batch-1")) jobs 2), w') /\
    getBatchRoute "batch-1" w' = Reply 200 (ConversionsBody jobs) /\
    timers w' = batchTimers (Some "low") 0 jobs.
Proof.
  destruct (batch_route_creates_batch demoParse "batch-1" demoUuids
              (fun _ => 1000) [demoFile; demoFile2] demoFields demoBusy)
    as (jobs & w' & Hpost & _ & Hlist & Htimers).
  - discriminate.
  - reflexivity.
  - intros file [<-|[<-|[]]]; [exact demo_storable|exact demo_storable2].
  - exact demoBatch_allowed.
  - intros c props [<-|[<-|[]]] [= <-]; discriminate.
  - exists jobs, w'. auto.
Defined.


(** The upload of the scenario, which asks for low quality. *)
Lemma quality_recorded_and_timed_witness :
  exists job tm,
    MockStorage.getConversion "job-1"
      (storage (snd (submit demoParse Single "job-1" 1000 (Some demoFile)
                       demoFields boot))) = Some job /\
    timers (snd (submit demoParse Single "job-1" 1000 (Some demoFile)
                   demoFields boot)) = [tm] /\
    delay tm = 100 /\
    (processingTime tm = 3000 <-> quality demoFields = Some "high").
Proof.
  destruct (quality_recorded_and_timed demoParse Single "job-1" 1000 demoFile
              demoFields boot eq_refl demo_storable)
    as (job & tm & Hjob & Htm & _ & _ & Hd & Hh & _).
  exists job, tm. auto.
Defined.

(** A tool added to the two tools the catalogue starts with. *)
Lemma addTool_sets_server_fields_witness :
  JsMap.get "usageCount"
    (fst (MockAdminStorage.addTool "tool-9" 5000 demoTool
            MockAdminStorage.initial)) = Some (VJson (JNum 0)) /\
  JsMap.get "id"
    (fst (MockAdminStorage.addTool "tool-9" 5000 demoTool
            MockAdminStorage.initial)) = Some (VJson (JStr "tool-9")).
Proof.
  destruct (addTool_sets_server_fields "tool-9" 5000 demoTool
              MockAdminStorage.initial) as (_ & Hu & _ & Hid & _).
  - repeat constructor; simpl; intuition discriminate.
  - split; [exact Hu|exact Hid].
Defined.

Lemma addTool_then_deleteTool_witness :
  MockAdminStorage.deleteTool "tool-9"
    (snd (MockAdminStorage.addTool "tool-9" 5000 demoTool
            MockAdminStorage.initial))
  = (true, MockAdminStorage.initial).
Proof.
  apply (addTool_then_deleteTool "tool-9" 5000 demoTool MockAdminStorage.initial).
  - repeat constructor; simpl; intuition discriminate.
  - reflexivity.
  - intros x [<-|[<-|[]]]; reflexivity.
Defined.

(** A visitor without token who comes back with the cookie. *)
Lemma returning_visitor_recognised_witness :
  fst (fst (trackUser "tok-2" "user-2" 30 40
              {| headerToken := None;
                 cookieToken := Some (fst (fst demoTracked));
                 agent := None; address := None |}
              (snd (fst demoTracked)) (snd demoTracked))) = "tok-1" /\
  length (snd (fst (trackUser "tok-2" "user-2" 30 40
                      {| headerToken := None;
                         cookieToken := Some (fst (fst demoTracked));
                         agent := None; address := None |}
                      (snd (fst demoTracked)) (snd demoTracked)))) = 1%nat.
Proof.
  destruct (returning_visitor_recognised "tok-1" "user-1" "user-2" "tok-2"
              10 20 30 40 (Some "curl/8.0") (Some "10.0.0.7") None None [] [])
    as (Hc & Hl & _).
  - discriminate.
  - reflexivity.
  - split; [exact Hc|exact Hl].
Defined.

Lemma track_then_delete_user_witness :
  deleteUserById "user-1" (snd (fst demoTracked)) = [].
Proof.
  apply (track_then_delete_user "tok-1" "user-1" 10 20 demoVisit [] []).
  - reflexivity.
  - intros t u [].
Defined.

(** A key with three of ten requests used, and the same key with all ten
    used. *)
Lemma api_gate_admits_within_quota_witness :
  0 <= convertRemaining demoApiKey /\ convertCount demoApiKey <= 10.
Proof.
  destruct (api_gate_admits_within_quota demoHash (demoQuery 3)
              (Some "Bearer ak_demo") 100 demoApiKey eq_refl)
    as (header & key & row & rows & _ & _ & _ & _ & _ & _ & _ & _ & _ & _ & _
        & _ & _ & Hrem & _).
  split; [exact Hrem|]. vm_compute. discriminate.
Defined.

Lemma exhausted_key_is_rate_limited_witness :
  validateApiKey demoHash (demoQuery 10) (Some ("Bearer " ++ "ak_demo")) 100
  = LimitExceeded (Some 10) (Some 10).
Proof.
  apply (exhausted_key_is_rate_limited demoHash (demoQuery 10) "ak_demo"
           (demoRow 10) [] 100); try reflexivity.
  intros expiry [= <-]. lia.
Defined.

Lemma bearer_header_parsing_witness :
  validateApiKey demoHash (demoQuery 3)
    (Some ("Bearer " ++ "ak_demo" ++ " " ++ "and more")) 100
  = validateApiKey demoHash (demoQuery 3) (Some ("Bearer " ++ "ak_demo")) 100.
Proof.
  apply (bearer_header_parsing demoHash (demoQuery 3) "ak_demo" "and more" 100).
  reflexivity.
Defined.
